(** * winget-frontend: the package-manager output adapter

    A shallow embedding of [src/winget_client.py]: the [Package] record, the
    process runner [_run_command], the three tabular parsers
    ([_parse_list_output], [_parse_search_output], [_parse_upgrade_output])
    the three fetch operations built on them and the three operations that
    change the system ([install], [uninstall], [upgrade]); and of two parts
    of [src/main.py]: the loop that upgrades every package and the two
    table filters.

    Python text is a sequence of Unicode code points, modelled as [list N].
    The two regular expressions of the source are values of a small regex
    syntax, run by a backtracking matcher with the priority order of
    Python's [re] module (lazy repetitions try the shortest run first,
    greedy ones the longest, an optional group is tried before it is
    skipped). *)

From Stdlib Require Import Strings.String Strings.Ascii Numbers.DecimalString.
From Stdlib Require Import List NArith ZArith Bool Lia Arith.
Import ListNotations.
Local Open Scope string_scope.
Local Open Scope list_scope.

(** ** Text *)

Module Py.

Definition char := N.
Definition str := list char.

(** A literal of the source, as code points. *)
Definition lit (s : string) : str :=
  map N_of_ascii (list_ascii_of_string s).

Definition nl : char := 10%N.

(** [str.isspace] on one code point; [\s] of [re] on text patterns is the
    same predicate. *)
Definition isspace (c : char) : bool :=
  ((9 <=? c) && (c <=? 13) || (28 <=? c) && (c <=? 32)
   || (c =? 133) || (c =? 160) || (c =? 5760)
   || (8192 <=? c) && (c <=? 8202)
   || (c =? 8232) || (c =? 8233) || (c =? 8239) || (c =? 8287)
   || (c =? 12288))%N.

Fixpoint lstrip (s : str) : str :=
  match s with
  | [] => []
  | c :: s' => if isspace c then lstrip s' else s
  end.

Definition rstrip (s : str) : str := rev (lstrip (rev s)).

(** [s.strip()] *)
Definition strip (s : str) : str := rstrip (lstrip s).

(** [s.split(sep)] for a one-character separator. *)
Fixpoint split (sep : char) (s : str) : list str :=
  match s with
  | [] => [[]]
  | c :: s' =>
      if (c =? sep)%N then [] :: split sep s'
      else match split sep s' with
           | [] => [[c]]
           | l :: ls => (c :: l) :: ls
           end
  end.

(** [s.startswith(p)] *)
Fixpoint startswith (p s : str) : bool :=
  match p, s with
  | [], _ => true
  | _ :: _, [] => false
  | a :: p', b :: s' => (a =? b)%N && startswith p' s'
  end.

(** [needle in s] *)
Fixpoint contains (needle s : str) : bool :=
  startswith needle s ||
  match s with
  | [] => false
  | _ :: s' => contains needle s'
  end.

(** [s.lower()].  Capital ASCII letters map to small ones.  The only other
    code points whose lower case holds an ASCII letter are U+0130 (to "i"
    followed by U+0307) and U+212A (to "k"); every other code point maps to
    code points outside ASCII, which no test of the source against an ASCII
    needle can see, and is left in place here. *)
Definition lower_char (c : char) : str :=
  if ((65 <=? c) && (c <=? 90))%N then [(c + 32)%N]
  else if (c =? 304)%N then [105%N; 775%N]
  else if (c =? 8490)%N then [107%N]
  else [c].

Definition lower (s : str) : str := flat_map lower_char s.

(** Truth value of a string. *)
Definition truthy (s : str) : bool :=
  match s with [] => false | _ :: _ => true end.

Fixpoint eqb (a b : str) : bool :=
  match a, b with
  | [], [] => true
  | x :: a', y :: b' => (x =? y)%N && eqb a' b'
  | _, _ => false
  end.

(** [str(n)] for an [int]. *)
Definition str_of_int (n : Z) : str :=
  lit (NilZero.string_of_int (Z.to_int n)).

End Py.

Import Py.

(** ** Regular expressions *)

Module Re.

(** The fragment of the pattern language that the source uses. *)
Inductive regex : Type :=
| Bol                                               (* ^ *)
| Eol                                               (* $ *)
| Rep (cls : char -> bool) (min : nat) (greedy : bool)
                                    (* cls{min,} and its lazy form cls{min,}? *)
| Group (i : nat) (r : regex)                       (* ( r ), group number i *)
| Opt (r : regex)                                   (* (?: r )? *)
| Seq (r1 r2 : regex).

(** [.] without DOTALL: anything but a newline. *)
Definition dot (c : char) : bool := negb (c =? nl)%N.

Definition captures := list (nat * str).

Fixpoint group (m : captures) (i : nat) : option str :=
  match m with
  | [] => None
  | (j, g) :: m' => if Nat.eqb i j then Some g else group m' i
  end.

Section Matcher.

Variable A : Type.

(** cls{min,}?  : the shortest run first. *)
Fixpoint rep_lazy (cls : char -> bool) (min : nat) (s : str)
         (k : str -> option A) {struct s} : option A :=
  match min with
  | S m =>
      match s with
      | c :: s' => if cls c then rep_lazy cls m s' k else None
      | [] => None
      end
  | O =>
      match k s with
      | Some r => Some r
      | None =>
          match s with
          | c :: s' => if cls c then rep_lazy cls O s' k else None
          | [] => None
          end
      end
  end.

(** cls{min,}  : the longest run first, then one character less at a time. *)
Fixpoint rep_greedy (cls : char -> bool) (min : nat) (s : str)
         (k : str -> option A) {struct s} : option A :=
  let stop := match min with O => k s | S _ => None end in
  match s with
  | c :: s' =>
      if cls c then
        match rep_greedy cls (Nat.pred min) s' k with
        | Some r => Some r
        | None => stop
        end
      else stop
  | [] => stop
  end.

End Matcher.

Arguments rep_lazy {A} cls min s k.
Arguments rep_greedy {A} cls min s k.

(** The matcher proper, in continuation-passing style: [k] is what is left
    of the pattern.  [whole] is the subject, [s] what is left of it. *)
Fixpoint run (r : regex) (whole s : str) (m : captures)
         (k : str -> captures -> option captures) : option captures :=
  match r with
  | Bol => if Nat.eqb (length s) (length whole) then k s m else None
  | Eol =>
      match s with
      | [] => k s m
      | [c] => if (c =? nl)%N then k s m else None
      | _ => None
      end
  | Rep cls min true => rep_greedy cls min s (fun s' => k s' m)
  | Rep cls min false => rep_lazy cls min s (fun s' => k s' m)
  | Group i r' =>
      run r' whole s m
          (fun s' m' => k s' ((i, firstn (length s - length s') s) :: m'))
  | Opt r' =>
      match run r' whole s m k with
      | Some res => Some res
      | None => k s m
      end
  | Seq r1 r2 => run r1 whole s m (fun s' m' => run r2 whole s' m' k)
  end.

(** [re.match(pattern, s)] *)
Definition re_match (pattern : regex) (s : str) : option captures :=
  run pattern s s [] (fun _ m => Some m).

End Re.

Import Re.

Infix ";;" := Seq (at level 61, right associativity).

(** ** The package record *)

Record Package : Type := mkPackage {
  name : str;
  id : str;
  version : str;
  source : str;
  available_version : str
}.

(** ** The parsers *)

Definition field (i : nat) : regex := Group i (Rep dot 1 false).
Definition gap : regex := Rep isspace 2 true.

(** r'^(.+?)\s{2,}(.+?)\s{2,}(.+?)(?:\s{2,}(.+?))?(?:\s{2,}(.+?))?$' *)
Definition list_pattern : regex :=
  Bol ;; field 1 ;; gap ;; field 2 ;; gap ;; field 3 ;;
  Opt (gap ;; field 4) ;; Opt (gap ;; field 5) ;; Eol.

(** r'^(.+?)\s{2,}(.+?)\s{2,}(.+?)\s{2,}(.+?)\s{2,}(.+?)$' *)
Definition upgrade_pattern : regex :=
  Bol ;; field 1 ;; gap ;; field 2 ;; gap ;; field 3 ;; gap ;; field 4 ;;
  gap ;; field 5 ;; Eol.

Definition dashes : str := lit "---".

(** The loop that looks for the separator line: the index of the first line
    whose stripped text starts with three dashes, [-1] when there is none. *)
Fixpoint separator_index (idx : Z) (lines : list str) : Z :=
  match lines with
  | [] => (-1)%Z
  | line :: rest =>
      if startswith dashes (strip line) then idx
      else separator_index (idx + 1)%Z rest
  end.

(** The test that skips progress indicators and other non-data lines. *)
Definition skipped (line : str) : bool :=
  (length line <? 10)%nat
  || startswith (lit "-") line || startswith (lit "\") line
  || startswith (lit "|") line || startswith (lit "/") line.

(** [match.group(i).strip() if match.group(i) else ""] *)
Definition stripped_group (m : captures) (i : nat) : str :=
  match group m i with
  | Some g => if truthy g then strip g else []
  | None => []
  end.

(** [match.group(i).strip()] for a group that took part in the match. *)
Definition group_strip (m : captures) (i : nat) : str :=
  match group m i with
  | Some g => strip g
  | None => []
  end.

Definition looks_like_source (group4 : str) : bool :=
  contains (lit "winget") (lower group4)
  || contains (lit "msstore") (lower group4)
  || (length group4 <? 20)%nat.

(** The record built from a match of [list_pattern] in [_parse_list_output]. *)
Definition list_record (m : captures) : Package :=
  let name := group_strip m 1 in
  let package_id := group_strip m 2 in
  let version := group_strip m 3 in
  let group4 := stripped_group m 4 in
  let group5 := stripped_group m 5 in
  if truthy group5 then
    mkPackage name package_id version group5 group4
  else if truthy group4 && looks_like_source group4 then
    mkPackage name package_id version group4 []
  else
    mkPackage name package_id version (lit "winget") group4.

Definition labels : list str := [lit "Command:"; lit "Tag:"; lit "Tag"].

Definition is_label (s : str) : bool := existsb (Py.eqb s) labels.

(** The same in [_parse_search_output]. *)
Definition search_record (m : captures) : Package :=
  let name := group_strip m 1 in
  let package_id := group_strip m 2 in
  let version := group_strip m 3 in
  let group4 := stripped_group m 4 in
  let group5 := stripped_group m 5 in
  if truthy group5 then
    mkPackage name package_id version group5
              (if truthy group4 && negb (is_label group4) then group4 else [])
  else if truthy group4 && looks_like_source group4 then
    mkPackage name package_id version group4 []
  else
    mkPackage name package_id version (lit "winget") group4.

(** The same in [_parse_upgrade_output]. *)
Definition upgrade_record (m : captures) : Package :=
  let name := group_strip m 1 in
  let package_id := group_strip m 2 in
  let current_version := group_strip m 3 in
  let available_version := group_strip m 4 in
  let source := group_strip m 5 in
  mkPackage name package_id current_version source available_version.

(** One turn of the loop over the data lines: [packages] before the line,
    [packages] after it. *)
Definition line_step (pattern : regex) (record : captures -> Package)
           (packages : list Package) (line : str) : list Package :=
  let line := strip line in
  if negb (truthy line) then packages
  else if skipped line then packages
  else match re_match pattern line with
       | Some m => packages ++ [record m]
       | None => packages
       end.

(** The loop over the data lines. *)
Definition parse_lines (pattern : regex) (record : captures -> Package)
           (data_lines : list str) (packages : list Package) : list Package :=
  fold_left (line_step pattern record) data_lines packages.

(** The body shared by the three parsers. *)
Definition parse_with (pattern : regex) (record : captures -> Package)
           (output : str) : list Package :=
  let packages := [] in
  let lines := split nl (strip output) in
  let separator_idx := separator_index 0 lines in
  if (separator_idx =? -1)%Z then packages
  else
    let data_lines := skipn (Z.to_nat (separator_idx + 1)) lines in
    parse_lines pattern record data_lines packages.

Definition _parse_list_output : str -> list Package :=
  parse_with list_pattern list_record.

Definition _parse_search_output : str -> list Package :=
  parse_with list_pattern search_record.

Definition _parse_upgrade_output : str -> list Package :=
  parse_with upgrade_pattern upgrade_record.

(** ** The process runner and the fetch operations *)

(** What [subprocess.run] does: it returns a completed process, or raises. *)
Inductive run_result : Type :=
| Completed (stdout stderr : str) (returncode : Z)
| TimeoutExpired
| FileNotFoundError
| PermissionError
| OtherException (message : str).

Section Client.

(** The operating system, as [subprocess.run] sees it: the outcome of
    running an argument vector under a timeout. *)
Variable subprocess_run : list str -> Z -> run_result.

Definition winget_exe : str := lit "winget".

Definition _run_command (args : list str) (timeout : Z) : str * Z :=
  match subprocess_run (winget_exe :: args) timeout with
  | Completed stdout stderr returncode =>
      if negb (returncode =? 0)%Z && truthy stderr
      then (stdout ++ [nl] ++ lit "STDERR: " ++ stderr, returncode)
      else (stdout, returncode)
  | TimeoutExpired => (lit "Command timed out", 1%Z)
  | FileNotFoundError =>
      (lit "winget command not found. Is Windows Package Manager installed?",
       1%Z)
  | PermissionError =>
      (lit "Permission denied. Administrator privileges may be required.",
       1%Z)
  | OtherException message => (lit "Error: " ++ message, 1%Z)
  end.

Definition default_timeout : Z := 60%Z.

Definition list_installed : list Package * option str :=
  let '(stdout, return_code) := _run_command [lit "list"] default_timeout in
  if negb (return_code =? 0)%Z then
    let error_msg :=
      if contains (lit "Error") stdout || contains (lit "Permission") stdout
      then stdout
      else lit "Command failed with return code " ++ str_of_int return_code in
    ([], Some error_msg)
  else
    let packages := _parse_list_output stdout in
    (packages, None).

Definition search (query : str) : list Package * option str :=
  let '(stdout, return_code) :=
    _run_command [lit "search"; query] default_timeout in
  if negb (return_code =? 0)%Z then
    let error_msg :=
      if contains (lit "Error") stdout || contains (lit "Permission") stdout
      then stdout
      else lit "Command failed with return code " ++ str_of_int return_code in
    ([], Some error_msg)
  else
    let packages := _parse_search_output stdout in
    (packages, None).

Definition check_for_updates : list Package * option str :=
  let '(stdout, return_code) := _run_command [lit "upgrade"] default_timeout in
  if negb (return_code =? 0)%Z then
    let error_msg :=
      if contains (lit "Error") stdout || contains (lit "Permission") stdout
      then stdout
      else lit "Command failed with return code " ++ str_of_int return_code in
    ([], Some error_msg)
  else
    let packages := _parse_upgrade_output stdout in
    (packages, None).

End Client.

(** ** Sample texts *)

(** [chr(10).join(lines)] *)
Fixpoint join_lines (lines : list str) : str :=
  match lines with
  | [] => []
  | [l] => l
  | l :: rest => l ++ nl :: join_lines rest
  end.

Definition text (lines : list string) : str := join_lines (map lit lines).

(** ** The words of the specification *)

(** A header separator: a line whose trimmed content starts with three
    dashes. *)
Definition is_separator (line : str) : bool := startswith dashes (strip line).

(** The data lines: all the lines after the first header separator. *)
Fixpoint data_lines_of (lines : list str) : list str :=
  match lines with
  | [] => []
  | line :: rest => if is_separator line then rest else data_lines_of rest
  end.

(** A matching data line: its trimmed form is not empty, is not skipped as a
    progress indicator, and matches the column pattern. *)
Definition matching (pattern : regex) (line : str) : bool :=
  let line := strip line in
  truthy line && negb (skipped line) &&
  match re_match pattern line with Some _ => true | None => false end.

(** [rec] is the record made from the columns of [line]. *)
Definition record_from (pattern : regex) (record : captures -> Package)
           (line : str) (rec : Package) : Prop :=
  exists m, re_match pattern (strip line) = Some m /\ rec = record m.

(** With a header separator line in the text, [parser] returns exactly one
    record for each matching data line, the records standing in the order
    of their lines: the matching data lines and the records pair off, first
    with first and last with last. *)
Definition one_record_per_matching_line (pattern : regex)
           (record : captures -> Package) (parser : str -> list Package)
  : Prop :=
  forall output : str,
    existsb is_separator (split nl (strip output)) = true ->
    Forall2 (record_from pattern record)
            (filter (matching pattern)
                    (data_lines_of (split nl (strip output))))
            (parser output).

(** The trimmed line begins with one of the four spinner characters. *)
Definition spinner_start (line : str) : Prop :=
  exists c rest, strip line = c :: rest /\
    In c [45%N (* - *); 92%N (* \ *); 124%N (* | *); 47%N (* / *)].

(** The three parsing contexts: the pattern and the record builder of
    [_parse_list_output], [_parse_search_output] and
    [_parse_upgrade_output]. *)
Definition contexts : list (regex * (captures -> Package)) :=
  [(list_pattern, list_record); (list_pattern, search_record);
   (upgrade_pattern, upgrade_record)].

(** The single optional trailing value of a match: the stripped text of
    group 4 or of group 5 when exactly one of them took part. *)
Definition sole_trailing_value (m : captures) : option str :=
  match group m 4, group m 5 with
  | Some g, None => Some (strip g)
  | None, Some g => Some (strip g)
  | _, _ => None
  end.

(** The line gives no source column: no fifth group, and no fourth group
    that the parser takes for a source. *)
Definition no_source_column (m : captures) : bool :=
  negb (truthy (stripped_group m 5))
  && negb (truthy (stripped_group m 4)
           && looks_like_source (stripped_group m 4)).

Definition is_gapb (g : str) : bool :=
  (2 <=? length g)%nat && forallb isspace g.

(** The outcomes that the specification names for a run.  The source has
    no such type: [_run_command] returns a text and an integer. *)
Inductive ExitOutcome : Type :=
| Success
| NonZeroExit (code : Z)
| TimedOut
| NotFound
| PermissionDenied
| OtherFailure (message : str).

(** The outcome of a run, as the specification names it. *)
Definition outcome_of (r : run_result) : ExitOutcome :=
  match r with
  | Completed _ _ returncode =>
      if (returncode =? 0)%Z then Success else NonZeroExit returncode
  | TimeoutExpired => TimedOut
  | FileNotFoundError => NotFound
  | PermissionError => PermissionDenied
  | OtherException message => OtherFailure message
  end.

(** The caller can tell the outcomes apart: some reading of the pair that
    [_run_command] returns gives back the outcome of the run. *)
Definition distinguishable : Prop :=
  exists classify : str * Z -> ExitOutcome,
    forall run args timeout,
      classify (_run_command run args timeout)
      = outcome_of (run (winget_exe :: args) timeout).

(** What a fetch operation returns, given the pair that the runner returned
    and the parser of the operation. *)
Definition fetch_contract (result : list Package * option str)
           (ran : str * Z) (parse : str -> list Package) : Prop :=
  let '(stdout, return_code) := ran in
  (snd result <> None <-> return_code <> 0%Z)
  /\ (return_code <> 0%Z ->
      result
      = ([], Some (if contains (lit "Error") stdout
                      || contains (lit "Permission") stdout
                   then stdout
                   else lit "Command failed with return code "
                        ++ str_of_int return_code)))
  /\ (return_code = 0%Z -> result = (parse stdout, None)).

(** ** What a pattern matches *)

(** What a pattern matches, without the search order: [den whole r s m s' m']
    says that [r] can take a prefix of [s], leave [s'] and turn the groups
    [m] into [m']. *)
Fixpoint den (whole : str) (r : regex) (s : str) (m : captures)
         (s' : str) (m' : captures) : Prop :=
  match r with
  | Bol => length s = length whole /\ s' = s /\ m' = m
  | Eol => (s = [] \/ s = [nl]) /\ s' = s /\ m' = m
  | Rep cls min _ =>
      exists pre, s = pre ++ s' /\ forallb cls pre = true /\
                  min <= length pre /\ m' = m
  | Group i r' =>
      exists m0, den whole r' s m s' m0 /\
                 m' = (i, firstn (length s - length s') s) :: m0
  | Opt r' => den whole r' s m s' m' \/ (s' = s /\ m' = m)
  | Seq r1 r2 =>
      exists s1 m1, den whole r1 s m s1 m1 /\ den whole r2 s1 m1 s' m'
  end.

(** A column: one character or more, none of them a newline. *)
Definition is_field (g : str) : Prop := g <> [] /\ forallb dot g = true.

(** A column gap: two white-space characters or more. *)
Definition is_gap (g : str) : Prop := 2 <= length g /\ forallb isspace g = true.

(** ** Lines of texts set end to end *)

(** The lines of two texts set end to end: the last line of the first runs
    on into the first line of the second. *)
Fixpoint glue (xs ys : list str) : list str :=
  match xs with
  | [] => ys
  | x :: xs' =>
      match xs' with
      | [] => match ys with [] => [x] | y :: ys' => (x ++ y) :: ys' end
      | _ :: _ => x :: glue xs' ys
      end
  end.

(** ** Samples *)

Definition timed_out_run : list str -> Z -> run_result :=
  fun _ _ => TimeoutExpired.

Definition failing_run : list str -> Z -> run_result :=
  fun _ _ => Completed (lit "Command timed out") [] 1.

Definition missing_run : list str -> Z -> run_result :=
  fun _ _ => FileNotFoundError.

Definition two_updates : str :=
  text ["Name  Id       Version  Available  Source";
        "-----------------------------------------";
        "Git  Git.Git  2.40.0  2.42.0  winget";
        "2 upgrades available.";
        "Vim  vim.vim  9.0.1  9.1.0  winget"].

Definition sample_installed : str :=
  text ["Name         Id         Version  Source";
        "--------------------------------------";
        "7-Zip 22.01  7zip.7zip  22.01  winget";
        "Notepad++ (64-bit x64)  Notepad++.Notepad++  8.5.4"].

(** ** Well-formed table rows *)

(** No two white-space characters stand side by side. *)
Fixpoint no_wide_gap (s : str) : bool :=
  match s with
  | a :: t =>
      match t with
      | b :: _ => negb (isspace a && isspace b) && no_wide_gap t
      | [] => true
      end
  | [] => true
  end.

(** A text that is not empty, ends with a character that is not white space
    and has single blanks only. *)
Definition tight (b : str) : Prop :=
  b <> [] /\ no_wide_gap b = true
  /\ exists t c, b = t ++ [c] /\ isspace c = false.

(** A column as the package manager prints it: not empty, without white
    space at either end, without a newline, and with single blanks only
    inside. *)
Definition is_column (f : str) : bool :=
  truthy f && Py.eqb (strip f) f && forallb dot f && no_wide_gap f.

(** The first character is one of the four that the loop takes for a
    progress indicator. *)
Definition starts_with_spinner (line : str) : bool :=
  startswith (lit "-") line || startswith (lit "\") line
  || startswith (lit "|") line || startswith (lit "/") line.

(** [line] is a row of the upgradable-list table for [rec]: its trimmed
    text is the five fields of [rec], each a column, with a gap between each
    field and the next. *)
Definition upgrade_row (line : str) (rec : Package) : Prop :=
  exists g1 g2 g3 g4 : str,
    strip line
    = name rec ++ g1 ++ id rec ++ g2 ++ version rec ++ g3
      ++ available_version rec ++ g4 ++ source rec
    /\ is_gapb g1 = true /\ is_gapb g2 = true
    /\ is_gapb g3 = true /\ is_gapb g4 = true
    /\ is_column (name rec) = true /\ is_column (id rec) = true
    /\ is_column (version rec) = true
    /\ is_column (available_version rec) = true
    /\ is_column (source rec) = true
    /\ starts_with_spinner (name rec) = false.

(** ** The operations that change the system *)

Section Mutations.

Variable subprocess_run : list str -> Z -> run_result.

Definition install (package_id : str) (user_context : bool)
  : bool * option str :=
  let cmd := [lit "install"; lit "--id"; package_id;
              lit "--accept-package-agreements";
              lit "--accept-source-agreements"; lit "--silent"] in
  let cmd := if user_context then cmd ++ [lit "--scope"; lit "user"]
             else cmd ++ [lit "--scope"; lit "machine"] in
  let '(stdout, return_code) :=
    _run_command subprocess_run cmd default_timeout in
  if negb (return_code =? 0)%Z then
    let error_msg :=
      if contains (lit "Error") stdout || contains (lit "Permission") stdout
      then stdout
      else lit "Installation failed with return code "
           ++ str_of_int return_code in
    (false, Some error_msg)
  else (true, None).

Definition uninstall (package_id : str) : bool * option str :=
  let '(stdout, return_code) :=
    _run_command subprocess_run
                 [lit "uninstall"; lit "--id"; package_id; lit "--silent"]
                 default_timeout in
  if negb (return_code =? 0)%Z then
    let error_msg :=
      if contains (lit "Error") stdout || contains (lit "Permission") stdout
      then stdout
      else lit "Uninstallation failed with return code "
           ++ str_of_int return_code in
    (false, Some error_msg)
  else (true, None).

Definition upgrade (package_id : str) : bool * option str :=
  let '(stdout, return_code) :=
    _run_command subprocess_run
                 [lit "upgrade"; lit "--id"; package_id;
                  lit "--accept-package-agreements";
                  lit "--accept-source-agreements"; lit "--silent"]
                 default_timeout in
  if negb (return_code =? 0)%Z then
    let error_msg :=
      if contains (lit "Error") stdout || contains (lit "Permission") stdout
      then stdout
      else lit "Upgrade failed with return code "
           ++ str_of_int return_code in
    (false, Some error_msg)
  else (true, None).

End Mutations.

(** The six operations of the client, with their arguments. *)
Inductive operation : Type :=
| ListInstalled
| Search (query : str)
| CheckForUpdates
| Install (package_id : str) (user_context : bool)
| Uninstall (package_id : str)
| Upgrade (package_id : str).

(** The arguments that an operation hands to the package manager. *)
Definition argv_of (op : operation) : list str :=
  match op with
  | ListInstalled => [lit "list"]
  | Search query => [lit "search"; query]
  | CheckForUpdates => [lit "upgrade"]
  | Install package_id user_context =>
      [lit "install"; lit "--id"; package_id;
       lit "--accept-package-agreements"; lit "--accept-source-agreements";
       lit "--silent"; lit "--scope";
       if user_context then lit "user" else lit "machine"]
  | Uninstall package_id =>
      [lit "uninstall"; lit "--id"; package_id; lit "--silent"]
  | Upgrade package_id =>
      [lit "upgrade"; lit "--id"; package_id;
       lit "--accept-package-agreements"; lit "--accept-source-agreements";
       lit "--silent"]
  end.

(** The start of the message of an operation that gives no better one. *)
Definition failure_prefix (op : operation) : str :=
  match op with
  | ListInstalled | Search _ | CheckForUpdates =>
      lit "Command failed with return code "
  | Install _ _ => lit "Installation failed with return code "
  | Uninstall _ => lit "Uninstallation failed with return code "
  | Upgrade _ => lit "Upgrade failed with return code "
  end.

(** The error that an operation returns to its caller. *)
Definition error_of (run : list str -> Z -> run_result) (op : operation)
  : option str :=
  match op with
  | ListInstalled => snd (list_installed run)
  | Search query => snd (search run query)
  | CheckForUpdates => snd (check_for_updates run)
  | Install package_id user_context => snd (install run package_id user_context)
  | Uninstall package_id => snd (uninstall run package_id)
  | Upgrade package_id => snd (upgrade run package_id)
  end.

(** The success flag of an operation: the fetch operations have none, the
    others return one. *)
Definition succeeded (run : list str -> Z -> run_result) (op : operation)
  : option bool :=
  match op with
  | ListInstalled | Search _ | CheckForUpdates => None
  | Install package_id user_context =>
      Some (fst (install run package_id user_context))
  | Uninstall package_id => Some (fst (uninstall run package_id))
  | Upgrade package_id => Some (fst (upgrade run package_id))
  end.

(** ** The application: upgrading everything, filtering the tables *)

(** An optional message inside an f-string. *)
Definition format_optional (e : option str) : str :=
  match e with
  | Some s => s
  | None => lit "None"
  end.

(** The loop of [do_upgrade_all] in [perform_upgrade_all], from its [i]-th
    turn on.  [runs i] is the system as the [i]-th turn finds it, and
    [is_cancelled i] the flag of the worker as that turn reads it.  The
    result is [(success_count, fail_count, errors)]. *)
Fixpoint upgrade_all_loop (runs : nat -> list str -> Z -> run_result)
         (is_cancelled : nat -> bool) (i : nat) (package_ids : list str)
         (success_count fail_count : Z) (errors : list str)
  : Z * Z * list str :=
  match package_ids with
  | [] => (success_count, fail_count, errors)
  | package_id :: rest =>
      if is_cancelled i then (success_count, fail_count, errors)
      else
        let '(success, error) := upgrade (runs i) package_id in
        if success then
          upgrade_all_loop runs is_cancelled (S i) rest
                           (success_count + 1)%Z fail_count errors
        else
          upgrade_all_loop runs is_cancelled (S i) rest
                           success_count (fail_count + 1)%Z
                           (errors ++ [package_id ++ lit ": "
                                       ++ format_optional error])
  end.

Definition do_upgrade_all (runs : nat -> list str -> Z -> run_result)
           (is_cancelled : nat -> bool) (package_ids : list str)
  : Z * Z * list str :=
  upgrade_all_loop runs is_cancelled 0 package_ids 0%Z 0%Z [].

(** [package_ids = [pkg.id for pkg in self.updates_data]] *)
Definition package_ids_of (updates_data : list Package) : list str :=
  map id updates_data.

Section Filter.

(** [str.lower] on any text. *)
Variable str_lower : str -> str.

(** The rows of the installed table after [filter_installed_table], when
    the search input holds [value] and both widgets exist: the table is
    cleared and one row is added for each package that passes. *)
Definition filter_installed_table (value : str)
           (installed_packages_data : list Package) : list (list str) :=
  let query := str_lower (strip value) in
  if negb (truthy query) then
    flat_map (fun pkg => [[name pkg; id pkg; version pkg; source pkg]])
             installed_packages_data
  else
    flat_map
      (fun pkg =>
         if contains query (str_lower (name pkg))
            || contains query (str_lower (id pkg))
            || contains query (str_lower (version pkg))
            || contains query (str_lower (source pkg))
         then [[name pkg; id pkg; version pkg; source pkg]]
         else [])
      installed_packages_data.

(** The same for [filter_updates_table]. *)
Definition filter_updates_table (value : str) (updates_data : list Package)
  : list (list str) :=
  let query := str_lower (strip value) in
  if negb (truthy query) then
    flat_map
      (fun pkg => [[name pkg; id pkg; version pkg; available_version pkg;
                    source pkg]])
      updates_data
  else
    flat_map
      (fun pkg =>
         if contains query (str_lower (name pkg))
            || contains query (str_lower (id pkg))
            || contains query (str_lower (version pkg))
            || contains query (str_lower (available_version pkg))
            || contains query (str_lower (source pkg))
         then [[name pkg; id pkg; version pkg; available_version pkg;
                source pkg]]
         else [])
      updates_data.

End Filter.

(** ** Notions for the further properties *)

(** The text begins with a character that is not white space. *)
Definition solid_start (s : str) : Prop :=
  exists c t, s = c :: t /\ isspace c = false.

(** A text without white space at either end and without a newline. *)
Definition trimmed (f : str) : Prop := strip f = f /\ forallb dot f = true.

(** Every group of the pattern is [(.+?)]. *)
Fixpoint groups_dot (r : regex) : Prop :=
  match r with
  | Group _ r' => r' = Rep dot 1 false
  | Opt r' => groups_dot r'
  | Seq r1 r2 => groups_dot r1 /\ groups_dot r2
  | _ => True
  end.

(** No group holds a newline. *)
Definition dot_captures (m : captures) : Prop :=
  forall i g, group m i = Some g -> forallb dot g = true.

(** The five fields of a record. *)
Definition fields (rec : Package) : list str :=
  [name rec; id rec; version rec; source rec; available_version rec].

(** The message of an operation, from what the runner returned. *)
Definition message_of (op : operation) (ran : str * Z) : option str :=
  let '(stdout, return_code) := ran in
  if (return_code =? 0)%Z then None
  else Some (if contains (lit "Error") stdout
                || contains (lit "Permission") stdout
             then stdout
             else failure_prefix op ++ str_of_int return_code).

(** * Properties *)

(** ** Text *)

Section TextFacts.

Lemma eqb_eq (a b : str) : Py.eqb a b = true -> a = b.
Proof.
  revert b; induction a as [|x a IH]; intros [|y b]; simpl; try discriminate.
  - reflexivity.
  - intros H. apply andb_true_iff in H. destruct H as [Hxy Hab].
    apply N.eqb_eq in Hxy. subst y. f_equal. apply IH. exact Hab.
Qed.

Lemma truthy_nonempty (s : str) : truthy s = true <-> s <> [].
Proof. destruct s; simpl; split; congruence. Qed.

(** [lstrip] removes a run of white space and stops at the first other
    character. *)
Lemma lstrip_split (s : str) :
  exists pre, s = pre ++ lstrip s /\ forallb isspace pre = true.
Proof.
  induction s as [|c s IH]; simpl.
  - exists []. split; reflexivity.
  - destruct (isspace c) eqn:E.
    + destruct IH as (pre & H1 & H2). exists (c :: pre). simpl.
      rewrite E, H2. split; [f_equal; exact H1|reflexivity].
    + exists []. split; reflexivity.
Qed.

Lemma lstrip_head (s : str) (c : char) (t : str) :
  lstrip s = c :: t -> isspace c = false.
Proof.
  induction s as [|d s IH]; simpl; [discriminate|].
  destruct (isspace d) eqn:E; [exact IH|].
  intros H. injection H as -> _. exact E.
Qed.

Lemma lstrip_spaces (s : str) :
  forallb isspace s = true -> lstrip s = [].
Proof.
  induction s as [|c s IH]; simpl; [reflexivity|].
  intros H. apply andb_true_iff in H. destruct H as [Hc Hs].
  rewrite Hc. apply IH. exact Hs.
Qed.

Lemma lstrip_app_keep (a b : str) (c : char) :
  isspace c = false -> lstrip (a ++ c :: b) = lstrip a ++ c :: b.
Proof.
  intros Hc. induction a as [|d a IH]; simpl.
  - rewrite Hc. reflexivity.
  - destruct (isspace d); [exact IH|reflexivity].
Qed.

Lemma lstrip_app_spaces (w z : str) :
  forallb isspace w = true -> lstrip (w ++ z) = lstrip z.
Proof.
  induction w as [|c w IH]; simpl; [reflexivity|].
  intros H. apply andb_true_iff in H. destruct H as [Hc Hw].
  rewrite Hc. apply IH. exact Hw.
Qed.

Lemma forallb_rev (f : char -> bool) (s : str) :
  forallb f s = true -> forallb f (rev s) = true.
Proof.
  intros H. apply forallb_forall. intros x Hx.
  apply in_rev in Hx. revert x Hx. apply forallb_forall. exact H.
Qed.

Lemma rstrip_cons_keep (c : char) (t : str) :
  isspace c = false -> rstrip (c :: t) = c :: rstrip t.
Proof.
  intros Hc. unfold rstrip. simpl.
  rewrite (lstrip_app_keep (rev t) [] c Hc), rev_app_distr. reflexivity.
Qed.

Lemma rstrip_last (s : str) (c : char) (t : str) :
  rstrip s = t ++ [c] -> isspace c = false.
Proof.
  unfold rstrip. intros H.
  apply (f_equal (@rev char)) in H.
  rewrite rev_involutive, rev_app_distr in H. simpl in H.
  exact (lstrip_head _ _ _ H).
Qed.

Lemma rstrip_app_spaces (z w : str) :
  forallb isspace w = true -> rstrip (z ++ w) = rstrip z.
Proof.
  intros H. unfold rstrip. rewrite rev_app_distr.
  rewrite lstrip_app_spaces; [reflexivity|apply forallb_rev; exact H].
Qed.

Lemma rstrip_split (s : str) :
  exists w, s = rstrip s ++ w /\ forallb isspace w = true.
Proof.
  destruct (lstrip_split (rev s)) as (pre & H1 & H2).
  exists (rev pre). split; [|apply forallb_rev; exact H2].
  unfold rstrip. rewrite <- rev_app_distr, <- H1, rev_involutive. reflexivity.
Qed.

(** A stripped text is empty or begins with a character that is not white
    space. *)
Lemma strip_head (s : str) (c : char) (t : str) :
  strip s = c :: t -> isspace c = false.
Proof.
  unfold strip. destruct (lstrip s) as [|d u] eqn:E.
  - discriminate.
  - pose proof (lstrip_head _ _ _ E) as Hd.
    rewrite (rstrip_cons_keep d u Hd). intros H. injection H as -> _. exact Hd.
Qed.

(** ... and ends with one. *)
Lemma strip_last (s : str) (c : char) (t : str) :
  strip s = t ++ [c] -> isspace c = false.
Proof. unfold strip. apply rstrip_last. Qed.

(** Stripping leaves something as soon as one character is not white
    space. *)
Lemma lstrip_nonempty (a b : str) (c : char) :
  isspace c = false -> lstrip (a ++ c :: b) <> [].
Proof.
  intros Hc. rewrite (lstrip_app_keep a b c Hc).
  destruct (lstrip a); discriminate.
Qed.

Lemma strip_nonempty (a b : str) (c : char) :
  isspace c = false -> strip (a ++ c :: b) <> [].
Proof.
  intros Hc. unfold strip. rewrite (lstrip_app_keep a b c Hc).
  unfold rstrip. rewrite rev_app_distr. simpl. rewrite <- app_assoc. simpl.
  intros H. apply (f_equal (@rev char)) in H. rewrite rev_involutive in H.
  simpl in H. exact (lstrip_nonempty (rev b) (rev (lstrip a)) c Hc H).
Qed.

(** White space before or after a line does not change its trimmed form. *)
Lemma strip_app_spaces_l (w z : str) :
  forallb isspace w = true -> strip (w ++ z) = strip z.
Proof.
  intros H. unfold strip. rewrite (lstrip_app_spaces w z H). reflexivity.
Qed.

Lemma strip_app_spaces_r (z w : str) :
  forallb isspace w = true -> strip (z ++ w) = strip z.
Proof.
  intros H. unfold strip.
  destruct (lstrip_split z) as (pre & H1 & H2).
  destruct (lstrip z) as [|c t] eqn:E.
  - rewrite app_nil_r in H1. subst pre.
    rewrite lstrip_spaces; [reflexivity|].
    rewrite forallb_app, H2, H. reflexivity.
  - pose proof (lstrip_head z c t E) as Hc.
    rewrite H1 at 1. rewrite <- app_assoc. cbn [app].
    rewrite (lstrip_app_keep pre (t ++ w) c Hc).
    rewrite (lstrip_spaces pre H2). cbn [app].
    exact (rstrip_app_spaces (c :: t) w H).
Qed.

End TextFacts.

(** ** Lines *)

Section Lines.

Lemma split_nonempty (s : str) : split nl s <> [].
Proof.
  destruct s as [|c s]; simpl; [discriminate|].
  destruct (N.eqb c nl); [discriminate|].
  destruct (split nl s); discriminate.
Qed.

Lemma split_app (a b : str) :
  split nl (a ++ b) = glue (split nl a) (split nl b).
Proof.
  induction a as [|c a IH].
  - simpl. destruct (split nl b) eqn:E; [|reflexivity].
    exfalso. exact (split_nonempty b E).
  - cbn [app split]. rewrite IH.
    pose proof (split_nonempty a) as Ha.
    destruct (split nl a) as [|l ls]; [congruence|].
    destruct (N.eqb c nl).
    + reflexivity.
    + pose proof (split_nonempty b) as Hb.
      destruct ls as [|l2 ls]; simpl.
      * destruct (split nl b); [congruence|reflexivity].
      * reflexivity.
Qed.

Lemma split_spaces (w : str) :
  forallb isspace w = true ->
  Forall (fun l => forallb isspace l = true) (split nl w).
Proof.
  induction w as [|c w IH]; simpl.
  - intros _. constructor; [reflexivity|constructor].
  - intros H. apply andb_true_iff in H. destruct H as [Hc Hw].
    specialize (IH Hw).
    destruct (N.eqb c nl).
    + constructor; [reflexivity|exact IH].
    + destruct (split nl w) as [|l ls]; [repeat constructor; simpl; now rewrite Hc|].
      inversion IH as [|? ? Hl Hls]; subst.
      constructor; [simpl; rewrite Hc; exact Hl|exact Hls].
Qed.

Lemma glue_no_separator_r (xs ys : list str) :
  Forall (fun l => forallb isspace l = true) xs ->
  existsb is_separator (glue xs ys) = false ->
  existsb is_separator ys = false.
Proof.
  induction xs as [|x xs IH]; intros Hxs H; [exact H|].
  inversion Hxs as [|? ? Hx Hrest]; subst.
  destruct xs as [|x2 xs].
  - destruct ys as [|y ys]; [reflexivity|].
    cbn [glue existsb] in *. unfold is_separator at 1 in H.
    rewrite (strip_app_spaces_l x y Hx) in H. exact H.
  - cbn [glue existsb] in H. apply orb_false_iff in H.
    apply IH; [exact Hrest|apply H].
Qed.

Lemma glue_no_separator_l (xs : list str) (y : str) (ys : list str) :
  forallb isspace y = true ->
  existsb is_separator (glue xs (y :: ys)) = false ->
  existsb is_separator xs = false.
Proof.
  intros Hy. induction xs as [|x xs IH]; intros H; [reflexivity|].
  destruct xs as [|x2 xs].
  - cbn [glue existsb] in *. apply orb_false_iff in H. destruct H as [H _].
    unfold is_separator in *. rewrite (strip_app_spaces_r x y Hy) in H.
    rewrite H. reflexivity.
  - cbn [glue] in H. cbn [existsb] in H. apply orb_false_iff in H.
    destruct H as [H1 H2].
    change (is_separator x || existsb is_separator (x2 :: xs) = false).
    rewrite H1. apply IH. exact H2.
Qed.

(** Stripping a text brings no separator line into it. *)
Lemma strip_no_separator (output : str) :
  existsb is_separator (split nl output) = false ->
  existsb is_separator (split nl (strip output)) = false.
Proof.
  intros H.
  destruct (lstrip_split output) as (w1 & E1 & Hw1).
  destruct (rstrip_split (lstrip output)) as (w2 & E2 & Hw2).
  fold (strip output) in E2.
  rewrite E1, split_app in H.
  apply (glue_no_separator_r _ _ (split_spaces w1 Hw1)) in H.
  rewrite E2, split_app in H.
  pose proof (split_spaces w2 Hw2) as Hs.
  pose proof (split_nonempty w2) as Hn.
  destruct (split nl w2) as [|y ys]; [congruence|].
  inversion Hs as [|? ? Hy _]; subst.
  exact (glue_no_separator_l _ y ys Hy H).
Qed.

Lemma data_lines_none (lines : list str) :
  existsb is_separator lines = false -> data_lines_of lines = [].
Proof.
  induction lines as [|l ls IH]; simpl; [reflexivity|].
  intros H. apply orb_false_iff in H. destruct H as [Hl Hls].
  rewrite Hl. apply IH. exact Hls.
Qed.

End Lines.

(** ** The loop over the data lines *)

Section Loop.

Variable pattern : regex.
Variable record : captures -> Package.

Lemma line_step_app (packages : list Package) (line : str) :
  line_step pattern record packages line
  = packages ++ line_step pattern record [] line.
Proof.
  unfold line_step.
  destruct (negb (truthy (strip line))); [now rewrite app_nil_r|].
  destruct (skipped (strip line)); [now rewrite app_nil_r|].
  destruct (re_match pattern (strip line)); [reflexivity|now rewrite app_nil_r].
Qed.

Lemma parse_lines_flat_map (data_lines : list str) (packages : list Package) :
  parse_lines pattern record data_lines packages
  = packages ++ flat_map (line_step pattern record []) data_lines.
Proof.
  unfold parse_lines.
  revert packages; induction data_lines as [|l ls IH]; intros packages; simpl.
  - now rewrite app_nil_r.
  - rewrite IH, line_step_app, app_assoc. reflexivity.
Qed.

Lemma line_step_matching (line : str) :
  matching pattern line = true ->
  exists m, re_match pattern (strip line) = Some m /\
            line_step pattern record [] line = [record m].
Proof.
  unfold matching, line_step. cbv zeta.
  destruct (truthy (strip line)); simpl; [|discriminate].
  destruct (skipped (strip line)); simpl; [discriminate|].
  destruct (re_match pattern (strip line)) as [m|]; [|discriminate].
  intros _. exists m. split; reflexivity.
Qed.

Lemma line_step_not_matching (line : str) :
  matching pattern line = false ->
  line_step pattern record [] line = [].
Proof.
  unfold matching, line_step. cbv zeta.
  destruct (truthy (strip line)); simpl; [|reflexivity].
  destruct (skipped (strip line)); simpl; [reflexivity|].
  destruct (re_match pattern (strip line)) as [m|]; [discriminate|reflexivity].
Qed.

Lemma flat_map_records (data_lines : list str) :
  Forall2 (record_from pattern record)
          (filter (matching pattern) data_lines)
          (flat_map (line_step pattern record []) data_lines).
Proof.
  induction data_lines as [|l ls IH]; simpl; [constructor|].
  destruct (matching pattern l) eqn:E.
  - destruct (line_step_matching l E) as (m & Hm & ->). simpl.
    constructor; [|exact IH]. exists m. split; [exact Hm|reflexivity].
  - rewrite (line_step_not_matching l E). exact IH.
Qed.

Lemma separator_index_cons (l : str) (ls : list str) (idx : Z) :
  separator_index idx (l :: ls)
  = if is_separator l then idx else separator_index (idx + 1) ls.
Proof. reflexivity. Qed.

Lemma separator_index_spec (lines : list str) (idx : Z) :
  (separator_index idx lines = (-1)%Z /\ existsb is_separator lines = false)
  \/ ((idx <= separator_index idx lines)%Z
      /\ existsb is_separator lines = true
      /\ skipn (Z.to_nat (separator_index idx lines - idx + 1)) lines
         = data_lines_of lines)
  \/ (idx < 0)%Z.
Proof.
  revert idx; induction lines as [|l ls IH]; intros idx.
  - left. split; reflexivity.
  - destruct (Z_lt_dec idx 0) as [Hneg|Hpos]; [right; right; exact Hneg|].
    rewrite separator_index_cons. cbn [existsb data_lines_of].
    destruct (is_separator l) eqn:E.
    + right; left. split; [lia|]. split; [reflexivity|].
      replace (idx - idx + 1)%Z with 1%Z by lia. reflexivity.
    + destruct (IH (idx + 1)%Z) as [[H1 H2]|[(H1 & H2 & H3)|H]]; [| |lia].
      * left. split; assumption.
      * right; left. split; [lia|]. split; [exact H2|].
        rewrite <- H3.
        replace (Z.to_nat (separator_index (idx + 1) ls - idx + 1))
          with (S (Z.to_nat (separator_index (idx + 1) ls - (idx + 1) + 1)))
          by lia.
        reflexivity.
Qed.

(** The parser, as the specification words it: nothing without a separator,
    and otherwise the records of the data lines, one line after the other. *)
Lemma parse_with_data_lines (output : str) :
  parse_with pattern record output
  = flat_map (line_step pattern record [])
             (data_lines_of (split nl (strip output))).
Proof.
  unfold parse_with. cbv zeta.
  destruct (separator_index_spec (split nl (strip output)) 0)
    as [[H1 H2]|[(H1 & H2 & H3)|H]]; [| |lia].
  - rewrite H1. simpl.
    clear H1. induction (split nl (strip output)) as [|l ls IH]; simpl in *;
      [reflexivity|].
    apply orb_false_iff in H2. destruct H2 as [Hl Hls].
    rewrite Hl. apply IH. exact Hls.
  - destruct (Z.eqb_spec (separator_index 0 (split nl (strip output))) (-1));
      [lia|].
    rewrite parse_lines_flat_map. simpl.
    rewrite Z.sub_0_r in H3. rewrite H3. reflexivity.
Qed.

(** Every record of a parser comes from one data line that passed the tests
    of the loop and matched the pattern. *)
Lemma in_parse_with (output : str) (rec : Package) :
  In rec (parse_with pattern record output) ->
  exists line m,
    In line (data_lines_of (split nl (strip output)))
    /\ strip line <> []
    /\ skipped (strip line) = false
    /\ re_match pattern (strip line) = Some m
    /\ rec = record m.
Proof.
  rewrite parse_with_data_lines. intros H.
  apply in_flat_map in H. destruct H as (line & Hin & H).
  exists line. unfold line_step in H. cbv zeta in H.
  destruct (truthy (strip line)) eqn:Et; simpl in H; [|contradiction].
  destruct (skipped (strip line)) eqn:Es; [contradiction|].
  destruct (re_match pattern (strip line)) as [m|]; [|contradiction].
  destruct H as [H|[]]. exists m.
  repeat split; try assumption; try congruence.
  apply truthy_nonempty. exact Et.
Qed.

(** A line that adds nothing can be taken out of the data lines. *)
Lemma parse_lines_drop (pre post : list str) (line : str)
      (packages : list Package) :
  line_step pattern record [] line = [] ->
  parse_lines pattern record (pre ++ line :: post) packages
  = parse_lines pattern record (pre ++ post) packages.
Proof.
  intros H. rewrite !parse_lines_flat_map, !flat_map_app. simpl.
  rewrite H. reflexivity.
Qed.

End Loop.

(** ** The matcher *)

Section MatcherFacts.

Lemma rep_lazy_sound (A : Type) (cls : char -> bool) (s : str) :
  forall (min : nat) (k : str -> option A) (res : A),
  rep_lazy cls min s k = Some res ->
  exists pre s', s = pre ++ s' /\ forallb cls pre = true /\
                 min <= length pre /\ k s' = Some res.
Proof.
  induction s as [|c s IH]; intros [|min] k res; simpl.
  - destruct (k []) eqn:E; [|discriminate].
    intros H. exists [], []. repeat split; try lia. congruence.
  - discriminate.
  - destruct (k (c :: s)) eqn:E.
    + intros H. exists [], (c :: s). repeat split; try lia. congruence.
    + destruct (cls c) eqn:Ec; [|discriminate].
      intros H. destruct (IH _ _ _ H) as (pre & s' & -> & H2 & H3 & H4).
      exists (c :: pre), s'. simpl. rewrite Ec, H2.
      repeat split; try lia. exact H4.
  - destruct (cls c) eqn:Ec; [|discriminate].
    intros H. destruct (IH _ _ _ H) as (pre & s' & -> & H2 & H3 & H4).
    exists (c :: pre), s'. simpl. rewrite Ec, H2.
    repeat split; try lia. exact H4.
Qed.

Lemma rep_greedy_sound (A : Type) (cls : char -> bool) (s : str) :
  forall (min : nat) (k : str -> option A) (res : A),
  rep_greedy cls min s k = Some res ->
  exists pre s', s = pre ++ s' /\ forallb cls pre = true /\
                 min <= length pre /\ k s' = Some res.
Proof.
  assert (Hstop : forall (t : str) (min : nat) (k : str -> option A) (res : A),
             match min with O => k t | S _ => None end = Some res ->
             exists pre s', t = pre ++ s' /\ forallb cls pre = true /\
                            min <= length pre /\ k s' = Some res).
  { intros t [|min] k res H; [|discriminate].
    exists [], t. repeat split; try lia. exact H. }
  induction s as [|c s IH]; intros min k res; simpl.
  - apply Hstop.
  - destruct (cls c) eqn:Ec; [|apply Hstop].
    destruct (rep_greedy cls (Nat.pred min) s k) eqn:E; [|apply Hstop].
    intros H. injection H as ->.
    destruct (IH _ _ _ E) as (pre & s' & -> & H2 & H3 & H4).
    exists (c :: pre), s'. simpl. rewrite Ec, H2.
    repeat split; try lia. exact H4.
Qed.

(** Whatever the matcher returns is a match. *)
Lemma run_sound (whole : str) (r : regex) :
  forall (s : str) (m : captures) (k : str -> captures -> option captures)
         (res : captures),
  run r whole s m k = Some res ->
  exists s' m', den whole r s m s' m' /\ k s' m' = Some res.
Proof.
  induction r as [| |cls min greedy|i r IH|r IH|r1 IH1 r2 IH2];
    intros s m k res; simpl.
  - destruct (Nat.eqb_spec (length s) (length whole)); [|discriminate].
    intros H. exists s, m. repeat split; assumption.
  - destruct s as [|c [|d s]].
    + intros H. exists [], m. repeat split; auto.
    + destruct (N.eqb_spec c nl); [|discriminate]. subst c.
      intros H. exists [nl], m. repeat split; auto.
    + discriminate.
  - destruct greedy; intros H.
    + destruct (rep_greedy_sound _ _ _ _ _ _ H) as (pre & s' & H1 & H2 & H3 & H4).
      exists s', m. split; [exists pre; repeat split; assumption|exact H4].
    + destruct (rep_lazy_sound _ _ _ _ _ _ H) as (pre & s' & H1 & H2 & H3 & H4).
      exists s', m. split; [exists pre; repeat split; assumption|exact H4].
  - intros H. destruct (IH _ _ _ _ H) as (s' & m0 & H1 & H2).
    exists s', ((i, firstn (length s - length s') s) :: m0).
    split; [exists m0; split; [exact H1|reflexivity]|exact H2].
  - destruct (run r whole s m k) eqn:E.
    + intros H. injection H as ->.
      destruct (IH _ _ _ _ E) as (s' & m' & H1 & H2).
      exists s', m'. split; [left; exact H1|exact H2].
    + intros H. exists s, m. split; [right; split; reflexivity|exact H].
  - intros H. destruct (IH1 _ _ _ _ H) as (s1 & m1 & H1 & H2).
    destruct (IH2 _ _ _ _ H2) as (s' & m' & H3 & H4).
    exists s', m'. split; [exists s1, m1; split; assumption|exact H4].
Qed.

Lemma re_match_sound (pattern : regex) (s : str) (m : captures) :
  re_match pattern s = Some m -> exists s', den s pattern s [] s' m.
Proof.
  unfold re_match. intros H.
  destruct (run_sound _ _ _ _ _ _ H) as (s' & m' & H1 & H2).
  injection H2 as <-. exists s'. exact H1.
Qed.

Lemma firstn_consumed (pre s' : str) :
  firstn (length (pre ++ s') - length s') (pre ++ s') = pre.
Proof.
  rewrite length_app.
  replace (length pre + length s' - length s') with (length pre + 0) by lia.
  rewrite firstn_app_2. simpl. apply app_nil_r.
Qed.

Lemma den_field (whole : str) (i : nat) (s : str) (m : captures)
      (s' : str) (m' : captures) :
  den whole (field i) s m s' m' ->
  exists g, s = g ++ s' /\ is_field g /\ m' = (i, g) :: m.
Proof.
  simpl. intros (m0 & (pre & H1 & H2 & H3 & H4) & H5). subst m0 m' s.
  rewrite firstn_consumed. exists pre. repeat split; try assumption.
  destruct pre; simpl in *; [lia|discriminate].
Qed.

Lemma den_gap (whole : str) (s : str) (m : captures) (s' : str)
      (m' : captures) :
  den whole gap s m s' m' -> exists g, s = g ++ s' /\ is_gap g /\ m' = m.
Proof.
  simpl. intros (pre & H1 & H2 & H3 & H4).
  exists pre. repeat split; assumption.
Qed.

End MatcherFacts.

(** ** The two patterns *)

Section PatternFacts.

(** A match of the five-column pattern cuts the line into five columns and
    four gaps; the groups are the columns. *)
Lemma upgrade_pattern_sound (line : str) (m : captures) :
  re_match upgrade_pattern line = Some m ->
  exists g1 s1 g2 s2 g3 s3 g4 s4 g5 tl,
    line = g1 ++ s1 ++ g2 ++ s2 ++ g3 ++ s3 ++ g4 ++ s4 ++ g5 ++ tl
    /\ (tl = [] \/ tl = [nl])
    /\ (is_field g1 /\ is_field g2 /\ is_field g3 /\ is_field g4 /\ is_field g5)
    /\ (is_gap s1 /\ is_gap s2 /\ is_gap s3 /\ is_gap s4)
    /\ m = [(5, g5); (4, g4); (3, g3); (2, g2); (1, g1)].
Proof.
  intros H. apply re_match_sound in H. destruct H as (s' & H).
  unfold upgrade_pattern in H. cbn [den] in H.
  destruct H as (t0 & m0 & (_ & -> & ->) & H).
  destruct H as (t1 & m1 & F1 & H). apply den_field in F1.
  destruct F1 as (g1 & E1 & F1 & ->).
  destruct H as (t2 & m2 & G1 & H). apply den_gap in G1.
  destruct G1 as (s1 & E2 & G1 & ->).
  destruct H as (t3 & m3 & F2 & H). apply den_field in F2.
  destruct F2 as (g2 & E3 & F2 & ->).
  destruct H as (t4 & m4 & G2 & H). apply den_gap in G2.
  destruct G2 as (s2 & E4 & G2 & ->).
  destruct H as (t5 & m5 & F3 & H). apply den_field in F3.
  destruct F3 as (g3 & E5 & F3 & ->).
  destruct H as (t6 & m6 & G3 & H). apply den_gap in G3.
  destruct G3 as (s3 & E6 & G3 & ->).
  destruct H as (t7 & m7 & F4 & H). apply den_field in F4.
  destruct F4 as (g4 & E7 & F4 & ->).
  destruct H as (t8 & m8 & G4 & H). apply den_gap in G4.
  destruct G4 as (s4 & E8 & G4 & ->).
  destruct H as (t9 & m9 & F5 & H). apply den_field in F5.
  destruct F5 as (g5 & E9 & F5 & ->).
  destruct H as (Htl & -> & ->).
  exists g1, s1, g2, s2, g3, s3, g4, s4, g5, t9.
  split; [congruence|]. split; [exact Htl|].
  split; [tauto|]. split; [tauto|]. reflexivity.
Qed.

(** A match of the pattern with optional columns cuts the line into three
    columns, two gaps and a rest; the first three groups are the columns. *)
Lemma list_pattern_sound (line : str) (m : captures) :
  re_match list_pattern line = Some m ->
  exists g1 s1 g2 s2 g3 rest,
    line = g1 ++ s1 ++ g2 ++ s2 ++ g3 ++ rest
    /\ (is_field g1 /\ is_field g2 /\ is_field g3)
    /\ (is_gap s1 /\ is_gap s2)
    /\ group m 1 = Some g1 /\ group m 2 = Some g2 /\ group m 3 = Some g3.
Proof.
  intros H. apply re_match_sound in H. destruct H as (s' & H).
  unfold list_pattern in H. cbn [den] in H.
  destruct H as (t0 & m0 & (_ & -> & ->) & H).
  destruct H as (t1 & m1 & F1 & H). apply den_field in F1.
  destruct F1 as (g1 & E1 & F1 & ->).
  destruct H as (t2 & m2 & G1 & H). apply den_gap in G1.
  destruct G1 as (s1 & E2 & G1 & ->).
  destruct H as (t3 & m3 & F2 & H). apply den_field in F2.
  destruct F2 as (g2 & E3 & F2 & ->).
  destruct H as (t4 & m4 & G2 & H). apply den_gap in G2.
  destruct G2 as (s2 & E4 & G2 & ->).
  destruct H as (t5 & m5 & F3 & H). apply den_field in F3.
  destruct F3 as (g3 & E5 & F3 & ->).
  exists g1, s1, g2, s2, g3, t5.
  split; [congruence|]. split; [tauto|]. split; [tauto|].
  destruct H as (t6 & m6 & O4 & t7 & m7 & O5 & (_ & _ & ->)).
  destruct O4 as [(t8 & m8 & G3 & F4)|(_ & ->)];
    [apply den_gap in G3; destruct G3 as (s3 & _ & _ & ->);
     apply den_field in F4; destruct F4 as (g4 & _ & _ & ->)|];
    (destruct O5 as [(t9 & m9 & G4 & F5)|(_ & ->)];
     [apply den_gap in G4; destruct G4 as (s4 & _ & _ & ->);
      apply den_field in F5; destruct F5 as (g5 & _ & _ & ->)|]);
    repeat split; reflexivity.
Qed.

End PatternFacts.

(** ** Fields of the records *)

Section FieldFacts.

Lemma is_label_short (v : str) :
  is_label v = true -> truthy v = true /\ looks_like_source v = true.
Proof.
  unfold is_label, labels. simpl. rewrite orb_false_r.
  intros H. apply orb_true_iff in H. destruct H as [H|H].
  - apply eqb_eq in H. subst v. split; vm_compute; reflexivity.
  - apply orb_true_iff in H. destruct H as [H|H];
      apply eqb_eq in H; subst v; split; vm_compute; reflexivity.
Qed.

Lemma list_record_source (m : captures) : source (list_record m) <> [].
Proof.
  unfold list_record. cbv zeta.
  destruct (truthy (stripped_group m 5)) eqn:E5; simpl.
  - apply truthy_nonempty. exact E5.
  - destruct (truthy (stripped_group m 4)) eqn:E4; simpl.
    + destruct (looks_like_source (stripped_group m 4)); simpl.
      * apply truthy_nonempty. exact E4.
      * discriminate.
    + discriminate.
Qed.

Lemma search_record_source (m : captures) : source (search_record m) <> [].
Proof.
  unfold search_record. cbv zeta.
  destruct (truthy (stripped_group m 5)) eqn:E5; simpl.
  - apply truthy_nonempty. exact E5.
  - destruct (truthy (stripped_group m 4)) eqn:E4; simpl.
    + destruct (looks_like_source (stripped_group m 4)); simpl.
      * apply truthy_nonempty. exact E4.
      * discriminate.
    + discriminate.
Qed.

(** The last group of the five-column pattern runs to the end of a trimmed
    line, so it holds a character that is not white space. *)
Lemma upgrade_record_source (line : str) (m : captures) :
  strip line <> [] ->
  re_match upgrade_pattern (strip line) = Some m ->
  source (upgrade_record m) <> [].
Proof.
  intros Hne H. apply upgrade_pattern_sound in H.
  destruct H as (g1 & s1 & g2 & s2 & g3 & s3 & g4 & s4 & g5 & tl
                 & E & Htl & (_ & _ & _ & _ & F5) & _ & ->).
  unfold upgrade_record, group_strip. simpl.
  destruct (exists_last Hne) as (t & c & Et).
  pose proof (strip_last line c t Et) as Hc.
  rewrite Et in E.
  destruct Htl as [->| ->].
  - destruct F5 as [F5 _].
    destruct (exists_last F5) as (u & d & ->).
    rewrite app_nil_r in E.
    replace (g1 ++ s1 ++ g2 ++ s2 ++ g3 ++ s3 ++ g4 ++ s4 ++ u ++ [d])
      with ((g1 ++ s1 ++ g2 ++ s2 ++ g3 ++ s3 ++ g4 ++ s4 ++ u) ++ [d]) in E
      by (repeat rewrite <- app_assoc; reflexivity).
    apply app_inj_tail in E. destruct E as [_ <-].
    apply strip_nonempty. exact Hc.
  - replace (g1 ++ s1 ++ g2 ++ s2 ++ g3 ++ s3 ++ g4 ++ s4 ++ g5 ++ [nl])
      with ((g1 ++ s1 ++ g2 ++ s2 ++ g3 ++ s3 ++ g4 ++ s4 ++ g5) ++ [nl]) in E
      by (repeat rewrite <- app_assoc; reflexivity).
    apply app_inj_tail in E. destruct E as [_ E]. subst c.
    discriminate Hc.
Qed.

(** The first group starts a trimmed line, so it holds a character that is
    not white space. *)
Lemma first_group_not_blank (line g rest : str) :
  strip line = g ++ rest -> is_field g -> strip g <> [].
Proof.
  intros E [Hg _]. destruct g as [|c t]; [congruence|].
  pose proof (strip_head line c (t ++ rest) E) as Hc.
  exact (strip_nonempty [] t c Hc).
Qed.

(** The name of a record is never empty, in any of the three parsers. *)
Lemma name_never_empty (output : str) (rec : Package) :
  In rec (_parse_list_output output)
  \/ In rec (_parse_search_output output)
  \/ In rec (_parse_upgrade_output output) ->
  name rec <> [].
Proof.
  intros [H|[H|H]];
    apply in_parse_with in H;
    destruct H as (line & m & _ & _ & _ & Hm & ->).
  - apply list_pattern_sound in Hm.
    destruct Hm as (g1 & s1 & g2 & s2 & g3 & rest & E & (F1 & _) & _ & H1 & _).
    unfold list_record, group_strip. rewrite H1.
    destruct (truthy (stripped_group m 5));
      [|destruct (truthy (stripped_group m 4) &&
                  looks_like_source (stripped_group m 4))];
      exact (first_group_not_blank line g1 _ E F1).
  - apply list_pattern_sound in Hm.
    destruct Hm as (g1 & s1 & g2 & s2 & g3 & rest & E & (F1 & _) & _ & H1 & _).
    unfold search_record, group_strip. rewrite H1.
    destruct (truthy (stripped_group m 5));
      [|destruct (truthy (stripped_group m 4) &&
                  looks_like_source (stripped_group m 4))];
      exact (first_group_not_blank line g1 _ E F1).
  - apply upgrade_pattern_sound in Hm.
    destruct Hm as (g1 & s1 & g2 & s2 & g3 & s3 & g4 & s4 & g5 & tl
                    & E & _ & (F1 & _) & _ & ->).
    exact (first_group_not_blank line g1 _ E F1).
Qed.

End FieldFacts.

(** * The claims *)

(** C1.  The installed-list parser turns the data line
    "7-Zip 22.01  7zip.7zip  22.01  winget" into exactly one record: name
    "7-Zip 22.01", id "7zip.7zip", version "22.01", source "winget" and an
    empty available version.  The line is given below a header and its
    separator, and also alone to the loop body. *)
Theorem C1_installed_line :
  let record :=
    mkPackage (lit "7-Zip 22.01") (lit "7zip.7zip") (lit "22.01")
              (lit "winget") [] in
  _parse_list_output
    (text ["Name         Id         Version  Source";
           "--------------------------------------";
           "7-Zip 22.01  7zip.7zip  22.01  winget"])
  = [record]
  /\ line_step list_pattern list_record []
               (lit "7-Zip 22.01  7zip.7zip  22.01  winget")
     = [record].
Proof. split; vm_compute; reflexivity. Qed.

(** C2, as stated, fails.  The search-results parser does treat a sole
    trailing "Tag" as data: every label is shorter than 20 characters, so
    the parser stores it as the source of the record, exactly as the
    installed-list parser does.  The available version is empty, but the
    label is one of the fields of the record. *)
Lemma C2_counterexample :
  _parse_search_output
    (text ["Name      Id        Version  Match";
           "----------------------------------";
           "Some App  Some.App  1.0  Tag"])
  = [mkPackage (lit "Some App") (lit "Some.App") (lit "1.0") (lit "Tag") []]
  /\ sole_trailing_value
       [(4, lit "Tag"); (3, lit "1.0"); (2, lit "Some.App");
        (1, lit "Some App")] = Some (lit "Tag")
  /\ re_match list_pattern (lit "Some App  Some.App  1.0  Tag")
     = Some [(4, lit "Tag"); (3, lit "1.0"); (2, lit "Some.App");
             (1, lit "Some App")]
  /\ is_label (lit "Tag") = true
  /\ ~ (forall rec,
          In rec (_parse_search_output
                    (text ["Name      Id        Version  Match";
                           "----------------------------------";
                           "Some App  Some.App  1.0  Tag"])) ->
          ~ In (lit "Tag")
               [name rec; id rec; version rec; source rec;
                available_version rec])
  /\ _parse_list_output
       (text ["Name      Id        Version  Match";
              "----------------------------------";
              "Some App  Some.App  1.0  Tag"])
     = [mkPackage (lit "Some App") (lit "Some.App") (lit "1.0") (lit "Tag")
                  []].
Proof.
  split; [vm_compute; reflexivity|].
  split; [vm_compute; reflexivity|].
  split; [vm_compute; reflexivity|].
  split; [vm_compute; reflexivity|].
  split; [|vm_compute; reflexivity].
  intros H.
  apply (H (mkPackage (lit "Some App") (lit "Some.App") (lit "1.0")
                      (lit "Tag") [])).
  - vm_compute. left. reflexivity.
  - simpl. right. right. right. left. reflexivity.
Qed.

(** C2, amended.  In the search-results parser, when a matched data line
    has exactly one optional trailing value and that value is "Command:",
    "Tag:" or "Tag", the record added for the line has an empty available
    version and the value as its source.  When both optional trailing
    values are there, the second is not blank and the first is such a
    label, the parser drops the label: the record has the second value as
    its source and an empty available version. *)
Theorem C2_search_label_is_source :
  forall (line : str) (packages : list Package) (m : captures) (v : str),
    truthy (strip line) = true ->
    skipped (strip line) = false ->
    re_match list_pattern (strip line) = Some m ->
    is_label v = true ->
    (sole_trailing_value m = Some v ->
     line_step list_pattern search_record packages line
     = packages ++ [mkPackage (group_strip m 1) (group_strip m 2)
                              (group_strip m 3) v []])
    /\ (stripped_group m 4 = v ->
        truthy (stripped_group m 5) = true ->
        line_step list_pattern search_record packages line
        = packages ++ [mkPackage (group_strip m 1) (group_strip m 2)
                                 (group_strip m 3) (stripped_group m 5) []]).
Proof.
  intros line packages m v Hne Hsk Hm Hl.
  assert (Hstep : line_step list_pattern search_record packages line
                  = packages ++ [search_record m]).
  { unfold line_step. cbv zeta. rewrite Hne, Hsk, Hm. reflexivity. }
  rewrite Hstep. destruct (is_label_short v Hl) as [Ht Hs].
  split.
  - intros Hv. f_equal. f_equal.
    unfold sole_trailing_value in Hv. unfold search_record, stripped_group.
    destruct (group m 4) as [g4|], (group m 5) as [g5|]; try discriminate;
      injection Hv as Hv.
    + destruct (truthy g4) eqn:E4.
      * rewrite Hv. simpl. rewrite Ht, Hs. reflexivity.
      * destruct g4; [|discriminate E4]. subst v. discriminate Ht.
    + destruct (truthy g5) eqn:E5.
      * rewrite Hv, Ht. reflexivity.
      * destruct g5; [|discriminate E5]. subst v. discriminate Ht.
  - intros H4 H5. f_equal. f_equal.
    unfold search_record. cbv zeta. rewrite H5, H4, Ht, Hl. reflexivity.
Qed.

Lemma C2_search_label_is_source_witness :
  line_step list_pattern search_record []
            (lit "Some App  Some.App  1.0  Tag")
  = [] ++ [mkPackage (lit "Some App") (lit "Some.App") (lit "1.0")
                     (lit "Tag") []]
  /\ line_step list_pattern search_record []
               (lit "Some App  Some.App  1.0  Tag:  winget")
     = [] ++ [mkPackage (lit "Some App") (lit "Some.App") (lit "1.0")
                        (lit "winget") []].
Proof.
  split.
  - apply (proj1 (C2_search_label_is_source
                    (lit "Some App  Some.App  1.0  Tag") []
                    [(4, lit "Tag"); (3, lit "1.0"); (2, lit "Some.App");
                     (1, lit "Some App")]
                    (lit "Tag")
                    eq_refl eq_refl eq_refl eq_refl)).
    reflexivity.
  - apply (proj2 (C2_search_label_is_source
                    (lit "Some App  Some.App  1.0  Tag:  winget") []
                    [(5, lit "winget"); (4, lit "Tag:"); (3, lit "1.0");
                     (2, lit "Some.App"); (1, lit "Some App")]
                    (lit "Tag:")
                    eq_refl eq_refl eq_refl eq_refl)).
    + reflexivity.
    + reflexivity.
Defined.

(** C3, as stated, fails.  A timeout and a missing executable both come
    back with status 1, and a timeout comes back as the very pair that a
    process printing "Command timed out" and leaving with code 1 gives: no
    reading of the returned pair tells the outcomes apart. *)
Lemma C3_counterexample :
  snd (_run_command timed_out_run [lit "list"] 60)
  = snd (_run_command missing_run [lit "list"] 60)
  /\ _run_command timed_out_run [lit "list"] 60
     = _run_command failing_run [lit "list"] 60
  /\ outcome_of (timed_out_run [lit "winget"; lit "list"] 60%Z) = TimedOut
  /\ outcome_of (failing_run [lit "winget"; lit "list"] 60%Z) = NonZeroExit 1
  /\ list_installed timed_out_run = list_installed missing_run
  /\ ~ distinguishable.
Proof.
  split; [reflexivity|]. split; [reflexivity|].
  split; [reflexivity|]. split; [reflexivity|].
  split; [vm_compute; reflexivity|].
  intros (classify & H).
  pose proof (H timed_out_run [lit "list"] 60%Z) as H1.
  pose proof (H failing_run [lit "list"] 60%Z) as H2.
  change (_run_command failing_run [lit "list"] 60)
    with (_run_command timed_out_run [lit "list"] 60) in H2.
  rewrite H1 in H2. discriminate H2.
Qed.

(** C3, amended.  The runner returns a text and an integer status.  A
    completed process gives its own return code, with its standard output
    (followed by a "STDERR: " section when the code is not zero and the
    standard error is not empty).  Every exception gives status 1 and a
    message: "Command timed out" for a timeout, a fixed message for a
    missing executable, another for a permission denial, "Error: " and the
    text of the exception otherwise.  The three fixed messages differ from
    each other, so these three failures differ by their text and not by
    their status. *)
Theorem C3_runner_results :
  forall (run : list str -> Z -> run_result) (args : list str) (timeout : Z),
    _run_command run args timeout
    = match run (winget_exe :: args) timeout with
      | Completed stdout stderr returncode =>
          (if negb (returncode =? 0)%Z && negb (Py.eqb stderr [])
           then stdout ++ nl :: lit "STDERR: " ++ stderr
           else stdout,
           returncode)
      | TimeoutExpired => (lit "Command timed out", 1%Z)
      | FileNotFoundError =>
          (lit "winget command not found. Is Windows Package Manager installed?",
           1%Z)
      | PermissionError =>
          (lit "Permission denied. Administrator privileges may be required.",
           1%Z)
      | OtherException message => (lit "Error: " ++ message, 1%Z)
      end
    /\ fst (_run_command timed_out_run args timeout)
       <> fst (_run_command missing_run args timeout)
    /\ fst (_run_command timed_out_run args timeout)
       <> fst (_run_command (fun _ _ => PermissionError) args timeout)
    /\ fst (_run_command missing_run args timeout)
       <> fst (_run_command (fun _ _ => PermissionError) args timeout).
Proof.
  intros run args timeout. split.
  - unfold _run_command.
    destruct (run (winget_exe :: args) timeout) as [out err rc| | | |msg];
      try reflexivity.
    destruct err; destruct (rc =? 0)%Z; reflexivity.
  - repeat split; discriminate.
Qed.

(** C4 does not hold of the code.  The groups of the patterns take any
    character, white space too, so on a line with too few columns and a wide
    gap the matcher falls back on groups made of a blank, which [strip]
    then empties: the installed-list and search-results parsers return a
    record with an empty id, the upgradable-list parser one with an empty
    id, an empty version and an empty available version. *)
Theorem C4_blank_group_records :
  _parse_list_output
    (text ["Name             Id             Version";
           "---------------------------------------";
           "Contoso Updater     4.2.1"])
  = [mkPackage (lit "Contoso Updater") [] (lit "4.2.1") (lit "winget") []]
  /\ _parse_search_output
       (text ["Name             Id             Version";
              "---------------------------------------";
              "Contoso Updater     4.2.1"])
     = [mkPackage (lit "Contoso Updater") [] (lit "4.2.1") (lit "winget") []]
  /\ _parse_upgrade_output
       (text ["Name             Id             Version  Available  Source";
              "----------------------------------------------------------";
              "Contoso Updater           winget"])
     = [mkPackage (lit "Contoso Updater") [] [] (lit "winget") []].
Proof. repeat split; vm_compute; reflexivity. Qed.

(** C5 does not hold of the code in full.  The upgradable-list parser
    does turn the line "Git  Git.Git  2.40.0  2.42.0  winget" into the
    record with name "Git", id "Git.Git", version "2.40.0", available
    version "2.42.0" and source "winget".  But a line that lacks one of the
    five columns is not always dropped: with six spaces between its four
    columns, "Git      Git.Git      2.40.0      winget" gives a record whose
    available version is empty, and the two-column line
    "Contoso Updater           winget" gives one with an empty id, version
    and available version.  The groups of the pattern take white space, so
    a wide gap stands in for the missing columns. *)
Theorem C5_missing_column_parsed :
  _parse_upgrade_output
    (text ["Name  Id       Version  Available  Source";
           "-----------------------------------------";
           "Git  Git.Git  2.40.0  2.42.0  winget"])
  = [mkPackage (lit "Git") (lit "Git.Git") (lit "2.40.0") (lit "winget")
               (lit "2.42.0")]
  /\ _parse_upgrade_output
       (text ["Name     Id           Version     Available  Source";
              "----------------------------------------------------";
              "Git      Git.Git      2.40.0      winget"])
     = [mkPackage (lit "Git") (lit "Git.Git") (lit "2.40.0") (lit "winget")
                  []]
  /\ _parse_upgrade_output
       (text ["Name             Id             Version  Available  Source";
              "----------------------------------------------------------";
              "Contoso Updater           winget"])
     = [mkPackage (lit "Contoso Updater") [] [] (lit "winget") []].
Proof. repeat split; vm_compute; reflexivity. Qed.

(** C6.  For every text none of whose lines has a trimmed content that
    starts with three dashes, each of the three parsers returns the empty
    sequence of records; the parsers are total functions, so this result is
    all that they give: no error is raised. *)
Theorem C6_no_separator_no_records :
  forall output : str,
    existsb is_separator (split nl output) = false ->
    _parse_list_output output = []
    /\ _parse_search_output output = []
    /\ _parse_upgrade_output output = [].
Proof.
  intros output H. apply strip_no_separator in H.
  unfold _parse_list_output, _parse_search_output, _parse_upgrade_output.
  rewrite !parse_with_data_lines, (data_lines_none _ H).
  repeat split; reflexivity.
Qed.

Lemma C6_no_separator_no_records_witness :
  _parse_list_output
    (text ["No installed package found matching input criteria.";
           "Git  Git.Git  2.40.0  2.42.0  winget"]) = []
  /\ _parse_search_output
       (text ["No installed package found matching input criteria.";
              "Git  Git.Git  2.40.0  2.42.0  winget"]) = []
  /\ _parse_upgrade_output
       (text ["No installed package found matching input criteria.";
              "Git  Git.Git  2.40.0  2.42.0  winget"]) = [].
Proof.
  apply (C6_no_separator_no_records
           (text ["No installed package found matching input criteria.";
                  "Git  Git.Git  2.40.0  2.42.0  winget"])).
  vm_compute. reflexivity.
Defined.

(** C7.  For [list_installed], [search] and [check_for_updates]: the error
    is not [None] exactly when the status returned by the runner is not
    zero; then the records are empty and the error is the captured text when
    it contains "Error" or "Permission", and "Command failed with return
    code N" otherwise; on status zero the error is [None] and the records
    are those of the parser, however few. *)
Theorem C7_fetch_errors :
  forall (run : list str -> Z -> run_result) (query : str),
    fetch_contract (list_installed run)
                   (_run_command run [lit "list"] 60) _parse_list_output
    /\ fetch_contract (search run query)
                      (_run_command run [lit "search"; query] 60)
                      _parse_search_output
    /\ fetch_contract (check_for_updates run)
                      (_run_command run [lit "upgrade"] 60)
                      _parse_upgrade_output.
Proof.
  intros run query.
  unfold list_installed, search, check_for_updates, default_timeout.
  repeat split;
    match goal with
    | |- context [_run_command ?r ?a ?t] =>
        destruct (_run_command r a t) as [stdout rc]
    end;
    unfold fetch_contract;
    destruct (Z.eqb_spec rc 0) as [E|E]; simpl;
    (split; [split; intros H; congruence|]);
    (split; [intros H; congruence|intros H; congruence]).
Qed.

Lemma C7_fetch_errors_witness :
  list_installed (fun _ _ => Completed [] (lit "boom") 5)
  = ([], Some (lit "Command failed with return code 5"))
  /\ check_for_updates (fun _ _ => Completed (lit "No updates.") [] 0)
     = ([], None).
Proof.
  split.
  - destruct (C7_fetch_errors (fun _ _ => Completed [] (lit "boom") 5) [])
      as [(_ & H & _) _].
    apply H. vm_compute. discriminate.
  - destruct (C7_fetch_errors
                (fun _ _ => Completed (lit "No updates.") [] 0) [])
      as (_ & _ & (_ & _ & H)).
    apply H. reflexivity.
Defined.

(** C8.  For every text with a header separator line, each of the three
    parsers returns exactly one record per matching data line, in the order
    of the lines from top to bottom. *)
Theorem C8_one_record_per_matching_line :
  one_record_per_matching_line list_pattern list_record _parse_list_output
  /\ one_record_per_matching_line list_pattern search_record
                                  _parse_search_output
  /\ one_record_per_matching_line upgrade_pattern upgrade_record
                                  _parse_upgrade_output.
Proof.
  unfold _parse_list_output, _parse_search_output, _parse_upgrade_output.
  repeat split; intros output _;
    rewrite parse_with_data_lines; apply flat_map_records.
Qed.

Lemma C8_one_record_per_matching_line_witness :
  Forall2 (record_from upgrade_pattern upgrade_record)
          (filter (matching upgrade_pattern)
                  (data_lines_of (split nl (strip two_updates))))
          (_parse_upgrade_output two_updates).
Proof.
  apply (proj2 (proj2 C8_one_record_per_matching_line) two_updates).
  vm_compute. reflexivity.
Defined.

(** C9.  In each of the three parsing contexts, a data line whose trimmed
    form is shorter than 10 characters, or begins with '-', '\', '|' or '/',
    adds no record, whatever its columns: the packages are the same after
    the line as before it, and the parse of the data lines is the parse
    without that line. *)
Theorem C9_short_and_spinner_lines_excluded :
  forall (pattern : regex) (record : captures -> Package)
         (line : str) (pre post : list str) (packages : list Package),
    In (pattern, record) contexts ->
    length (strip line) < 10 \/ spinner_start line ->
    line_step pattern record packages line = packages
    /\ parse_lines pattern record (pre ++ line :: post) packages
       = parse_lines pattern record (pre ++ post) packages.
Proof.
  intros pattern record line pre post packages _ H.
  assert (Hskip : truthy (strip line) = false \/ skipped (strip line) = true).
  { destruct H as [H|(c & rest & E & Hc)].
    - right. unfold skipped. apply Nat.ltb_lt in H. rewrite H. reflexivity.
    - right. unfold skipped. rewrite E.
      simpl in Hc.
      destruct Hc as [<-|[<-|[<-|[<-|[]]]]]; simpl;
        rewrite ?orb_true_r; reflexivity. }
  assert (Hnone : forall acc, line_step pattern record acc line = acc).
  { intros acc. unfold line_step. cbv zeta.
    destruct Hskip as [E|E]; rewrite E; simpl; [reflexivity|].
    destruct (truthy (strip line)); reflexivity. }
  split; [apply Hnone|]. apply parse_lines_drop. apply Hnone.
Qed.

Lemma C9_short_and_spinner_lines_excluded_witness :
  line_step upgrade_pattern upgrade_record []
            (lit "  - Git  Git.Git  2.40.0  2.42.0  winget") = []
  /\ line_step list_pattern list_record [] (lit "a  b  c") = [].
Proof.
  split.
  - apply (C9_short_and_spinner_lines_excluded
             upgrade_pattern upgrade_record
             (lit "  - Git  Git.Git  2.40.0  2.42.0  winget") [] [] []).
    + simpl. right. right. left. reflexivity.
    + right. exists 45%N, (lit " Git  Git.Git  2.40.0  2.42.0  winget").
      split; [vm_compute; reflexivity|simpl; left; reflexivity].
  - apply (C9_short_and_spinner_lines_excluded
             list_pattern list_record (lit "a  b  c") [] [] []).
    + simpl. left. reflexivity.
    + left. vm_compute. lia.
Defined.

(** C10.  Every record of each of the three parsers has a source that is
    not empty.  In the two parsers with optional columns, a line that gives
    no source column (no fifth group, and no fourth group that looks like a
    source) gets the literal "winget"; in the upgradable-list parser the
    source is the last of five columns of a trimmed line, which cannot be
    blank. *)
Theorem C10_source_never_empty :
  (forall (output : str) (rec : Package),
      In rec (_parse_list_output output)
      \/ In rec (_parse_search_output output)
      \/ In rec (_parse_upgrade_output output) ->
      source rec <> [])
  /\ (forall m : captures,
        no_source_column m = true ->
        source (list_record m) = lit "winget"
        /\ source (search_record m) = lit "winget").
Proof.
  split.
  - intros output rec [H|[H|H]];
      apply in_parse_with in H;
      destruct H as (line & m & _ & Hne & _ & Hm & ->).
    + apply list_record_source.
    + apply search_record_source.
    + exact (upgrade_record_source line m Hne Hm).
  - intros m H. unfold no_source_column in H.
    apply andb_true_iff in H. destruct H as [H5 H4].
    apply negb_true_iff in H5. apply negb_true_iff in H4.
    unfold list_record, search_record. cbv zeta. rewrite H5, H4.
    split; reflexivity.
Qed.

Lemma C10_source_never_empty_witness :
  source (mkPackage (lit "Notepad++ (64-bit x64)") (lit "Notepad++.Notepad++")
                    (lit "8.5.4") (lit "winget") []) <> []
  /\ source (list_record
               [(3, lit "8.5.4"); (2, lit "Notepad++.Notepad++");
                (1, lit "Notepad++ (64-bit x64)")]) = lit "winget".
Proof.
  split.
  - apply (proj1 C10_source_never_empty sample_installed).
    left. vm_compute. right. left. reflexivity.
  - apply (proj2 C10_source_never_empty
                 [(3, lit "8.5.4"); (2, lit "Notepad++.Notepad++");
                  (1, lit "Notepad++ (64-bit x64)")]).
    vm_compute. reflexivity.
Defined.

(** * Further properties *)

(** ** The search order of the matcher *)

Section MatcherOrder.

Lemma tight_tail (c : char) (b : str) : tight (c :: b) -> b <> [] -> tight b.
Proof.
  intros (_ & Hw & t & d & E & Hd) Hb. split; [exact Hb|]. split.
  - destruct b as [|x b]; [congruence|].
    cbn [no_wide_gap] in Hw. apply andb_true_iff in Hw. apply Hw.
  - destruct t as [|y t]; simpl in E.
    + injection E as _ E. congruence.
    + injection E as _ E. exists t, d. split; assumption.
Qed.

Lemma tight_suffix (a b : str) : tight (a ++ b) -> b <> [] -> tight b.
Proof.
  induction a as [|c a IH]; intros H Hb; [exact H|].
  apply IH; [|exact Hb]. apply (tight_tail c); [exact H|].
  destruct a; [exact Hb|discriminate].
Qed.

(** A lazy run goes through a text when what follows the run fails at
    every earlier stop and succeeds at the end of the text. *)
Lemma rep_lazy_through (A : Type) (cls : char -> bool) (f : str) :
  forall (min : nat) (k : str -> option A) (s : str) (r : A),
    forallb cls f = true ->
    min <= length f ->
    (forall a b, f = a ++ b -> b <> [] -> min <= length a ->
                 k (b ++ s) = None) ->
    k s = Some r ->
    rep_lazy cls min (f ++ s) k = Some r.
Proof.
  induction f as [|c f IH]; intros min k s r Hcls Hmin Hfail Hend.
  - simpl in Hmin. assert (min = 0) by lia. subst min.
    destruct s; simpl; rewrite Hend; reflexivity.
  - simpl in Hcls. apply andb_true_iff in Hcls. destruct Hcls as [Hc Hf].
    destruct min as [|min]; cbn [app rep_lazy].
    + assert (H0 : k ((c :: f) ++ s) = None)
        by (apply (Hfail [] (c :: f) eq_refl); [discriminate|simpl; lia]).
      simpl in H0. rewrite H0, Hc. apply IH; try assumption; [lia|].
      intros a b E Hb _. apply (Hfail (c :: a) b); [simpl; congruence|exact Hb|].
      simpl; lia.
    + rewrite Hc. apply IH; try assumption; [simpl in Hmin; lia|].
      intros a b E Hb Hlen.
      apply (Hfail (c :: a) b); [simpl; congruence|exact Hb|simpl; lia].
Qed.

(** A greedy run takes a whole run of its class first. *)
Lemma rep_greedy_all (A : Type) (cls : char -> bool) (g : str) :
  forall (min : nat) (k : str -> option A) (s : str) (r : A),
    forallb cls g = true ->
    min <= length g ->
    (s = [] \/ exists c t, s = c :: t /\ cls c = false) ->
    k s = Some r ->
    rep_greedy cls min (g ++ s) k = Some r.
Proof.
  induction g as [|c g IH]; intros min k s r Hcls Hmin Hs Hend.
  - simpl in Hmin. assert (min = 0) by lia. subst min.
    destruct Hs as [->|(c & t & -> & Hc)]; simpl; [exact Hend|].
    rewrite Hc. exact Hend.
  - simpl in Hcls. apply andb_true_iff in Hcls. destruct Hcls as [Hc Hg].
    cbn [app rep_greedy]. rewrite Hc.
    rewrite (IH (Nat.pred min) k s r Hg); [reflexivity| |exact Hs|exact Hend].
    simpl in Hmin. lia.
Qed.

(** A gap cannot start inside a tight text. *)
Lemma gap_fails_inside (A : Type) (b s : str) (k : str -> option A) :
  tight b -> rep_greedy isspace 2 (b ++ s) k = None.
Proof.
  intros (Hb & Hw & t & c & E & Hc).
  destruct b as [|x [|y b]]; [congruence| |].
  - destruct t as [|z t]; simpl in E; [|destruct t; discriminate].
    injection E as ->. cbn [app rep_greedy]. rewrite Hc. reflexivity.
  - cbn [no_wide_gap] in Hw. apply andb_true_iff in Hw. destruct Hw as [Hxy _].
    cbn [app rep_greedy].
    destruct (isspace x); [|reflexivity].
    simpl in Hxy. apply negb_true_iff in Hxy. rewrite Hxy. reflexivity.
Qed.

End MatcherOrder.

(** ** Matching well-formed rows *)

Section Rows.

Variable whole : str.

Lemma run_bol (r : regex) (m : captures)
      (k : str -> captures -> option captures) :
  run (Bol ;; r) whole whole m k = run r whole whole m k.
Proof. cbn [run]. rewrite Nat.eqb_refl. reflexivity. Qed.

Lemma run_field_through (i : nat) (r : regex) (f s : str) (m : captures)
      (k : str -> captures -> option captures) (res : captures) :
  tight f -> forallb dot f = true ->
  (forall b mb, tight b -> forallb dot b = true ->
                run r whole (b ++ s) mb k = None) ->
  run r whole s ((i, f) :: m) k = Some res ->
  run (field i ;; r) whole (f ++ s) m k = Some res.
Proof.
  intros Ht Hd Hfail Hend. unfold field. cbn [run].
  apply rep_lazy_through.
  - exact Hd.
  - destruct Ht as (Hne & _). destruct f; [congruence|simpl; lia].
  - intros a b E Hb _. apply Hfail.
    + apply (tight_suffix a); [rewrite <- E; exact Ht|exact Hb].
    + rewrite E, forallb_app in Hd. apply andb_true_iff in Hd. apply Hd.
  - rewrite firstn_consumed. exact Hend.
Qed.

Lemma run_field_end (i : nat) (r : regex) (f : str) (m : captures)
      (k : str -> captures -> option captures) (res : captures) :
  tight f -> forallb dot f = true ->
  (forall b mb, tight b -> forallb dot b = true ->
                run r whole b mb k = None) ->
  run r whole [] ((i, f) :: m) k = Some res ->
  run (field i ;; r) whole f m k = Some res.
Proof.
  intros Ht Hd Hfail Hend.
  pose proof (run_field_through i r f [] m k res Ht Hd) as H.
  rewrite app_nil_r in H. apply H; [|exact Hend].
  intros b mb Hb Hdb. rewrite app_nil_r. apply Hfail; assumption.
Qed.

Lemma run_gap_fails (r : regex) (b s : str) (m : captures)
      (k : str -> captures -> option captures) :
  tight b -> run (gap ;; r) whole (b ++ s) m k = None.
Proof. intros H. unfold gap. cbn [run]. apply gap_fails_inside. exact H. Qed.

Lemma run_opt_gap_fails (r r' : regex) (b s : str) (m : captures)
      (k : str -> captures -> option captures) :
  tight b ->
  run r' whole (b ++ s) m k = None ->
  run (Opt (gap ;; r) ;; r') whole (b ++ s) m k = None.
Proof.
  intros H H'. unfold gap. cbn [run].
  rewrite gap_fails_inside by exact H. exact H'.
Qed.

Lemma run_eol_fails (b s : str) (m : captures)
      (k : str -> captures -> option captures) :
  b <> [] -> forallb dot b = true -> run Eol whole (b ++ s) m k = None.
Proof.
  intros Hb Hd. destruct b as [|c b]; [congruence|].
  simpl in Hd. apply andb_true_iff in Hd. destruct Hd as [Hc _].
  cbn [app run]. destruct (b ++ s); [|reflexivity].
  unfold dot in Hc. apply negb_true_iff in Hc. rewrite Hc. reflexivity.
Qed.

Lemma run_gap_all (r : regex) (g s : str) (m : captures)
      (k : str -> captures -> option captures) (res : captures) :
  is_gapb g = true -> solid_start s ->
  run r whole s m k = Some res ->
  run (gap ;; r) whole (g ++ s) m k = Some res.
Proof.
  intros Hg Hs H. unfold is_gapb in Hg. apply andb_true_iff in Hg.
  destruct Hg as [Hlen Hws]. apply Nat.leb_le in Hlen.
  unfold gap. cbn [run]. apply rep_greedy_all; try assumption.
  right. exact Hs.
Qed.

Lemma run_opt_take (i : nat) (r' : regex) (s : str) (m : captures)
      (k : str -> captures -> option captures) (res : captures) :
  run (gap ;; field i ;; r') whole s m k = Some res ->
  run (Opt (gap ;; field i) ;; r') whole s m k = Some res.
Proof.
  intros H. cbn [run]. cbn [run] in H. rewrite H. reflexivity.
Qed.

Lemma run_opt_skip_nil (r r' : regex) (m : captures)
      (k : str -> captures -> option captures) :
  run (Opt (gap ;; r) ;; r') whole [] m k = run r' whole [] m k.
Proof. reflexivity. Qed.

(** A column, a gap, and what follows. *)
Lemma run_column_gap (i : nat) (r : regex) (f g s : str) (m : captures)
      (k : str -> captures -> option captures) (res : captures) :
  tight f -> forallb dot f = true -> is_gapb g = true -> solid_start s ->
  run r whole s ((i, f) :: m) k = Some res ->
  run (field i ;; gap ;; r) whole (f ++ g ++ s) m k = Some res.
Proof.
  intros Ht Hd Hg Hs H. apply run_field_through; try assumption.
  - intros b mb Hb _. apply run_gap_fails. exact Hb.
  - apply run_gap_all; assumption.
Qed.

(** The last column of the five-column pattern. *)
Lemma run_last_column (i : nat) (f : str) (m : captures) :
  tight f -> forallb dot f = true ->
  run (field i ;; Eol) whole f m (fun _ m' => Some m') = Some ((i, f) :: m).
Proof.
  intros Ht Hd. apply run_field_end; try assumption; [|reflexivity].
  intros b mb (Hb & _) Hdb. rewrite <- (app_nil_r b).
  apply run_eol_fails; assumption.
Qed.

(** The end of the pattern with optional columns, after the last column of
    the line. *)
Lemma run_opts_nil (m : captures) :
  run (Opt (gap ;; field 4) ;; Opt (gap ;; field 5) ;; Eol) whole [] m
      (fun _ m' => Some m') = Some m.
Proof. reflexivity. Qed.

Lemma run_opt5_nil (m : captures) :
  run (Opt (gap ;; field 5) ;; Eol) whole [] m (fun _ m' => Some m') = Some m.
Proof. reflexivity. Qed.

End Rows.

Section Columns.

Lemma column_facts (f : str) :
  is_column f = true ->
  tight f /\ forallb dot f = true /\ strip f = f /\ solid_start f.
Proof.
  unfold is_column. intros H.
  apply andb_true_iff in H. destruct H as [H Hw].
  apply andb_true_iff in H. destruct H as [H Hd].
  apply andb_true_iff in H. destruct H as [Hn Hs].
  apply eqb_eq in Hs. apply truthy_nonempty in Hn.
  assert (Hsolid : solid_start f).
  { destruct f as [|c t]; [congruence|]. exists c, t. split; [reflexivity|].
    exact (strip_head (c :: t) c t Hs). }
  repeat split; try assumption.
  destruct (exists_last Hn) as (t & c & E). exists t, c. split; [exact E|].
  apply (strip_last f c t). rewrite Hs. exact E.
Qed.

Lemma solid_start_app (f s : str) : solid_start f -> solid_start (f ++ s).
Proof. intros (c & t & -> & H). exists c, (t ++ s). split; [reflexivity|exact H]. Qed.

End Columns.

Section RowMatches.

Variables f1 f2 f3 f4 f5 g1 g2 g3 g4 : str.

Hypothesis Hf1 : is_column f1 = true.
Hypothesis Hf2 : is_column f2 = true.
Hypothesis Hf3 : is_column f3 = true.
Hypothesis Hg1 : is_gapb g1 = true.
Hypothesis Hg2 : is_gapb g2 = true.

(** Three columns: the two optional groups take no part. *)
Lemma list_pattern_three_columns :
  re_match list_pattern (f1 ++ g1 ++ f2 ++ g2 ++ f3)
  = Some [(3, f3); (2, f2); (1, f1)].
Proof.
  destruct (column_facts f1 Hf1) as (T1 & D1 & _ & _).
  destruct (column_facts f2 Hf2) as (T2 & D2 & _ & S2).
  destruct (column_facts f3 Hf3) as (T3 & D3 & _ & S3).
  unfold re_match, list_pattern. rewrite run_bol.
  apply run_column_gap; try assumption; [repeat apply solid_start_app; exact S2|].
  apply run_column_gap; try assumption.
  apply run_field_end; try assumption; [|apply run_opts_nil].
  intros b mb Hb Hdb. rewrite <- (app_nil_r b).
  apply run_opt_gap_fails; [exact Hb|].
  apply run_opt_gap_fails; [exact Hb|].
  apply run_eol_fails; [apply Hb|exact Hdb].
Qed.

Hypothesis Hf4 : is_column f4 = true.
Hypothesis Hg3 : is_gapb g3 = true.

(** Four columns: the fourth group is the fourth column, the fifth takes no
    part. *)
Lemma list_pattern_four_columns :
  re_match list_pattern (f1 ++ g1 ++ f2 ++ g2 ++ f3 ++ g3 ++ f4)
  = Some [(4, f4); (3, f3); (2, f2); (1, f1)].
Proof.
  destruct (column_facts f1 Hf1) as (T1 & D1 & _ & _).
  destruct (column_facts f2 Hf2) as (T2 & D2 & _ & S2).
  destruct (column_facts f3 Hf3) as (T3 & D3 & _ & S3).
  destruct (column_facts f4 Hf4) as (T4 & D4 & _ & S4).
  unfold re_match, list_pattern. rewrite run_bol.
  apply run_column_gap; try assumption; [repeat apply solid_start_app; exact S2|].
  apply run_column_gap; try assumption; [repeat apply solid_start_app; exact S3|].
  apply run_field_through; try assumption.
  - intros b mb Hb Hdb. apply run_opt_gap_fails; [exact Hb|].
    apply run_opt_gap_fails; [exact Hb|].
    apply run_eol_fails; [apply Hb|exact Hdb].
  - apply run_opt_take. apply run_gap_all; try assumption.
    apply run_field_end; try assumption; [|apply run_opt5_nil].
    intros b mb Hb Hdb. rewrite <- (app_nil_r b).
    apply run_opt_gap_fails; [exact Hb|].
    apply run_eol_fails; [apply Hb|exact Hdb].
Qed.

Hypothesis Hf5 : is_column f5 = true.
Hypothesis Hg4 : is_gapb g4 = true.

(** Five columns: every group is its column. *)
Lemma list_pattern_five_columns :
  re_match list_pattern (f1 ++ g1 ++ f2 ++ g2 ++ f3 ++ g3 ++ f4 ++ g4 ++ f5)
  = Some [(5, f5); (4, f4); (3, f3); (2, f2); (1, f1)].
Proof.
  destruct (column_facts f1 Hf1) as (T1 & D1 & _ & _).
  destruct (column_facts f2 Hf2) as (T2 & D2 & _ & S2).
  destruct (column_facts f3 Hf3) as (T3 & D3 & _ & S3).
  destruct (column_facts f4 Hf4) as (T4 & D4 & _ & S4).
  destruct (column_facts f5 Hf5) as (T5 & D5 & _ & S5).
  unfold re_match, list_pattern. rewrite run_bol.
  apply run_column_gap; try assumption; [repeat apply solid_start_app; exact S2|].
  apply run_column_gap; try assumption; [repeat apply solid_start_app; exact S3|].
  apply run_field_through; try assumption.
  - intros b mb Hb Hdb. apply run_opt_gap_fails; [exact Hb|].
    apply run_opt_gap_fails; [exact Hb|].
    apply run_eol_fails; [apply Hb|exact Hdb].
  - apply run_opt_take.
    apply run_gap_all; try assumption; [repeat apply solid_start_app; exact S4|].
    apply run_field_through; try assumption.
    + intros b mb Hb Hdb. apply run_opt_gap_fails; [exact Hb|].
      apply run_eol_fails; [apply Hb|exact Hdb].
    + apply run_opt_take. apply run_gap_all; try assumption.
      apply run_last_column; assumption.
Qed.

Lemma upgrade_pattern_five_columns :
  re_match upgrade_pattern
           (f1 ++ g1 ++ f2 ++ g2 ++ f3 ++ g3 ++ f4 ++ g4 ++ f5)
  = Some [(5, f5); (4, f4); (3, f3); (2, f2); (1, f1)].
Proof.
  destruct (column_facts f1 Hf1) as (T1 & D1 & _ & _).
  destruct (column_facts f2 Hf2) as (T2 & D2 & _ & S2).
  destruct (column_facts f3 Hf3) as (T3 & D3 & _ & S3).
  destruct (column_facts f4 Hf4) as (T4 & D4 & _ & S4).
  destruct (column_facts f5 Hf5) as (T5 & D5 & _ & S5).
  unfold re_match, upgrade_pattern. rewrite run_bol.
  apply run_column_gap; try assumption; [repeat apply solid_start_app; exact S2|].
  apply run_column_gap; try assumption; [repeat apply solid_start_app; exact S3|].
  apply run_column_gap; try assumption; [repeat apply solid_start_app; exact S4|].
  apply run_column_gap; try assumption.
  apply run_last_column; assumption.
Qed.

End RowMatches.

(** ** Parsing well-formed rows *)

Section RowRecords.

Lemma line_step_match (pattern : regex) (record : captures -> Package)
      (packages : list Package) (line : str) (m : captures) :
  10 <= length (strip line) ->
  starts_with_spinner (strip line) = false ->
  re_match pattern (strip line) = Some m ->
  line_step pattern record packages line = packages ++ [record m].
Proof.
  intros Hlen Hsp Hm. unfold line_step. cbv zeta. rewrite Hm.
  assert (Ht : truthy (strip line) = true)
    by (destruct (strip line); [simpl in Hlen; lia|reflexivity]).
  rewrite Ht. simpl.
  assert (Hsk : skipped (strip line) = false).
  { unfold skipped. unfold starts_with_spinner in Hsp.
    apply Nat.ltb_ge in Hlen. rewrite Hlen. simpl.
    rewrite <- !orb_assoc in Hsp. rewrite <- !orb_assoc. exact Hsp. }
  rewrite Hsk. reflexivity.
Qed.

Lemma starts_with_spinner_app (f s : str) :
  f <> [] -> starts_with_spinner (f ++ s) = starts_with_spinner f.
Proof. intros H. destruct f as [|c f]; [congruence|reflexivity]. Qed.

Lemma column_length (f : str) : is_column f = true -> 1 <= length f.
Proof.
  intros H. destruct (column_facts f H) as ((Hne & _) & _).
  destruct f; [congruence|simpl; lia].
Qed.

Lemma gap_length (g : str) : is_gapb g = true -> 2 <= length g.
Proof.
  unfold is_gapb. intros H. apply andb_true_iff in H.
  apply Nat.leb_le. apply H.
Qed.

Lemma column_group (f : str) (m : captures) (i : nat) :
  is_column f = true -> group m i = Some f ->
  group_strip m i = f /\ stripped_group m i = f.
Proof.
  intros H E. destruct (column_facts f H) as ((Hne & _) & _ & Hs & _).
  unfold group_strip, stripped_group. rewrite E.
  apply truthy_nonempty in Hne. rewrite Hne. split; exact Hs.
Qed.

Lemma column_nonempty (f : str) : is_column f = true -> f <> [].
Proof. intros H. destruct (column_facts f H) as ((Hne & _) & _). exact Hne. Qed.

End RowRecords.

(** A line of three well-formed columns, ten characters or more in all,
    gives the installed-list and the search-results parser one record: the
    columns as name, id and version, the source "winget" and no available
    version. *)
Theorem three_column_row :
  forall (line f1 f2 f3 g1 g2 : str) (packages : list Package),
    strip line = f1 ++ g1 ++ f2 ++ g2 ++ f3 ->
    is_column f1 = true -> is_column f2 = true -> is_column f3 = true ->
    is_gapb g1 = true -> is_gapb g2 = true ->
    starts_with_spinner f1 = false ->
    10 <= length (strip line) ->
    line_step list_pattern list_record packages line
    = packages ++ [mkPackage f1 f2 f3 (lit "winget") []]
    /\ line_step list_pattern search_record packages line
       = packages ++ [mkPackage f1 f2 f3 (lit "winget") []].
Proof.
  intros line f1 f2 f3 g1 g2 packages E Hf1 Hf2 Hf3 Hg1 Hg2 Hsp Hlen.
  pose proof (list_pattern_three_columns f1 f2 f3 g1 g2 Hf1 Hf2 Hf3 Hg1 Hg2) as Hm.
  rewrite <- E in Hm.
  assert (Hsp' : starts_with_spinner (strip line) = false).
  { rewrite E, starts_with_spinner_app; [exact Hsp|].
    apply column_nonempty. exact Hf1. }
  rewrite !(line_step_match _ _ packages line _ Hlen Hsp' Hm).
  destruct (column_group f1 [(3, f3); (2, f2); (1, f1)] 1 Hf1 eq_refl) as [H1 _].
  destruct (column_group f2 [(3, f3); (2, f2); (1, f1)] 2 Hf2 eq_refl) as [H2 _].
  destruct (column_group f3 [(3, f3); (2, f2); (1, f1)] 3 Hf3 eq_refl) as [H3 _].
  unfold list_record, search_record. cbv zeta. rewrite H1, H2, H3.
  split; reflexivity.
Qed.

Lemma three_column_row_witness :
  line_step list_pattern list_record []
            (lit "  Notepad++ (64-bit x64)  Notepad++.Notepad++  8.5.4  ")
  = [] ++ [mkPackage (lit "Notepad++ (64-bit x64)")
                     (lit "Notepad++.Notepad++") (lit "8.5.4")
                     (lit "winget") []]
  /\ line_step list_pattern search_record []
               (lit "  Notepad++ (64-bit x64)  Notepad++.Notepad++  8.5.4  ")
     = [] ++ [mkPackage (lit "Notepad++ (64-bit x64)")
                        (lit "Notepad++.Notepad++") (lit "8.5.4")
                        (lit "winget") []].
Proof.
  apply (three_column_row
           (lit "  Notepad++ (64-bit x64)  Notepad++.Notepad++  8.5.4  ")
           (lit "Notepad++ (64-bit x64)") (lit "Notepad++.Notepad++")
           (lit "8.5.4") (lit "  ") (lit "  ") []);
    try (vm_compute; reflexivity).
  vm_compute. lia.
Defined.

Section RowLengths.

Lemma four_columns_length (f1 f2 f3 f4 g1 g2 g3 : str) :
  is_column f1 = true -> is_column f2 = true -> is_column f3 = true ->
  is_column f4 = true ->
  is_gapb g1 = true -> is_gapb g2 = true -> is_gapb g3 = true ->
  10 <= length (f1 ++ g1 ++ f2 ++ g2 ++ f3 ++ g3 ++ f4).
Proof.
  intros Hf1 Hf2 Hf3 Hf4 Hg1 Hg2 Hg3. rewrite !length_app.
  pose proof (column_length f1 Hf1). pose proof (column_length f2 Hf2).
  pose proof (column_length f3 Hf3). pose proof (column_length f4 Hf4).
  pose proof (gap_length g1 Hg1). pose proof (gap_length g2 Hg2).
  pose proof (gap_length g3 Hg3). lia.
Qed.

Lemma five_columns_length (f1 f2 f3 f4 f5 g1 g2 g3 g4 : str) :
  is_column f1 = true -> is_column f2 = true -> is_column f3 = true ->
  is_column f4 = true -> is_column f5 = true ->
  is_gapb g1 = true -> is_gapb g2 = true -> is_gapb g3 = true ->
  is_gapb g4 = true ->
  10 <= length (f1 ++ g1 ++ f2 ++ g2 ++ f3 ++ g3 ++ f4 ++ g4 ++ f5).
Proof.
  intros Hf1 Hf2 Hf3 Hf4 Hf5 Hg1 Hg2 Hg3 Hg4. rewrite !length_app.
  pose proof (column_length f1 Hf1). pose proof (column_length f2 Hf2).
  pose proof (column_length f3 Hf3). pose proof (column_length f4 Hf4).
  pose proof (column_length f5 Hf5).
  pose proof (gap_length g1 Hg1). pose proof (gap_length g2 Hg2).
  pose proof (gap_length g3 Hg3). pose proof (gap_length g4 Hg4). lia.
Qed.

End RowLengths.

(** A line of four well-formed columns gives the installed-list and the
    search-results parser one record.  The fourth column is the source when
    it holds "winget" or "msstore" in any case or is shorter than 20
    characters; otherwise it is the available version and the source is
    "winget". *)
Theorem four_column_row :
  forall (line f1 f2 f3 f4 g1 g2 g3 : str) (packages : list Package),
    strip line = f1 ++ g1 ++ f2 ++ g2 ++ f3 ++ g3 ++ f4 ->
    is_column f1 = true -> is_column f2 = true -> is_column f3 = true ->
    is_column f4 = true ->
    is_gapb g1 = true -> is_gapb g2 = true -> is_gapb g3 = true ->
    starts_with_spinner f1 = false ->
    let rec :=
      if looks_like_source f4 then mkPackage f1 f2 f3 f4 []
      else mkPackage f1 f2 f3 (lit "winget") f4 in
    line_step list_pattern list_record packages line = packages ++ [rec]
    /\ line_step list_pattern search_record packages line = packages ++ [rec].
Proof.
  intros line f1 f2 f3 f4 g1 g2 g3 packages E Hf1 Hf2 Hf3 Hf4 Hg1 Hg2 Hg3 Hsp.
  pose proof (list_pattern_four_columns f1 f2 f3 f4 g1 g2 g3
                Hf1 Hf2 Hf3 Hg1 Hg2 Hf4 Hg3) as Hm.
  pose proof (four_columns_length f1 f2 f3 f4 g1 g2 g3
                Hf1 Hf2 Hf3 Hf4 Hg1 Hg2 Hg3) as Hlen.
  rewrite <- E in Hm, Hlen.
  assert (Hsp' : starts_with_spinner (strip line) = false).
  { rewrite E, starts_with_spinner_app; [exact Hsp|].
    apply column_nonempty. exact Hf1. }
  cbv zeta. rewrite !(line_step_match _ _ packages line _ Hlen Hsp' Hm).
  set (m := [(4, f4); (3, f3); (2, f2); (1, f1)]).
  destruct (column_group f1 m 1 Hf1 eq_refl) as [H1 _].
  destruct (column_group f2 m 2 Hf2 eq_refl) as [H2 _].
  destruct (column_group f3 m 3 Hf3 eq_refl) as [H3 _].
  destruct (column_group f4 m 4 Hf4 eq_refl) as [_ H4].
  assert (H5 : stripped_group m 5 = []) by reflexivity.
  unfold list_record, search_record. cbv zeta.
  rewrite H1, H2, H3, H4, H5.
  pose proof (column_nonempty f4 Hf4) as Hne. apply truthy_nonempty in Hne.
  rewrite Hne. simpl. destruct (looks_like_source f4); split; reflexivity.
Qed.

Lemma four_column_row_witness :
  line_step list_pattern list_record []
            (lit "7-Zip 22.01  7zip.7zip  22.01  winget")
  = [] ++ [mkPackage (lit "7-Zip 22.01") (lit "7zip.7zip") (lit "22.01")
                     (lit "winget") []]
  /\ line_step list_pattern search_record []
               (lit "7-Zip 22.01  7zip.7zip  22.01  winget")
     = [] ++ [mkPackage (lit "7-Zip 22.01") (lit "7zip.7zip") (lit "22.01")
                        (lit "winget") []].
Proof.
  apply (four_column_row
           (lit "7-Zip 22.01  7zip.7zip  22.01  winget")
           (lit "7-Zip 22.01") (lit "7zip.7zip") (lit "22.01") (lit "winget")
           (lit "  ") (lit "  ") (lit "  ") []);
    vm_compute; reflexivity.
Defined.

(** A line of five well-formed columns gives one record with the columns as
    name, id, version, available version and source, in the installed-list
    and the upgradable-list parser; the search-results parser gives the
    same record, with an empty available version when the fourth column is
    "Command:", "Tag:" or "Tag". *)
Theorem five_column_row :
  forall (line f1 f2 f3 f4 f5 g1 g2 g3 g4 : str) (packages : list Package),
    strip line = f1 ++ g1 ++ f2 ++ g2 ++ f3 ++ g3 ++ f4 ++ g4 ++ f5 ->
    is_column f1 = true -> is_column f2 = true -> is_column f3 = true ->
    is_column f4 = true -> is_column f5 = true ->
    is_gapb g1 = true -> is_gapb g2 = true -> is_gapb g3 = true ->
    is_gapb g4 = true ->
    starts_with_spinner f1 = false ->
    line_step list_pattern list_record packages line
    = packages ++ [mkPackage f1 f2 f3 f5 f4]
    /\ line_step upgrade_pattern upgrade_record packages line
       = packages ++ [mkPackage f1 f2 f3 f5 f4]
    /\ line_step list_pattern search_record packages line
       = packages ++ [mkPackage f1 f2 f3 f5 (if is_label f4 then [] else f4)].
Proof.
  intros line f1 f2 f3 f4 f5 g1 g2 g3 g4 packages E
         Hf1 Hf2 Hf3 Hf4 Hf5 Hg1 Hg2 Hg3 Hg4 Hsp.
  pose proof (list_pattern_five_columns f1 f2 f3 f4 f5 g1 g2 g3 g4
                Hf1 Hf2 Hf3 Hg1 Hg2 Hf4 Hg3 Hf5 Hg4) as Hm.
  pose proof (upgrade_pattern_five_columns f1 f2 f3 f4 f5 g1 g2 g3 g4
                Hf1 Hf2 Hf3 Hg1 Hg2 Hf4 Hg3 Hf5 Hg4) as Hu.
  pose proof (five_columns_length f1 f2 f3 f4 f5 g1 g2 g3 g4
                Hf1 Hf2 Hf3 Hf4 Hf5 Hg1 Hg2 Hg3 Hg4) as Hlen.
  rewrite <- E in Hm, Hu, Hlen.
  assert (Hsp' : starts_with_spinner (strip line) = false).
  { rewrite E, starts_with_spinner_app; [exact Hsp|].
    apply column_nonempty. exact Hf1. }
  rewrite !(line_step_match _ _ packages line _ Hlen Hsp' Hm).
  rewrite (line_step_match _ _ packages line _ Hlen Hsp' Hu).
  set (m := [(5, f5); (4, f4); (3, f3); (2, f2); (1, f1)]).
  destruct (column_group f1 m 1 Hf1 eq_refl) as [H1 _].
  destruct (column_group f2 m 2 Hf2 eq_refl) as [H2 _].
  destruct (column_group f3 m 3 Hf3 eq_refl) as [H3 _].
  destruct (column_group f4 m 4 Hf4 eq_refl) as [H4 H4'].
  destruct (column_group f5 m 5 Hf5 eq_refl) as [H5 H5'].
  unfold list_record, search_record, upgrade_record. cbv zeta.
  rewrite H1, H2, H3, H4, H5, H4', H5'.
  pose proof (column_nonempty f4 Hf4) as Hn4. apply truthy_nonempty in Hn4.
  pose proof (column_nonempty f5 Hf5) as Hn5. apply truthy_nonempty in Hn5.
  rewrite Hn4, Hn5. simpl.
  repeat split. destruct (is_label f4); reflexivity.
Qed.

Lemma five_column_row_witness :
  line_step list_pattern list_record []
            (lit "Git  Git.Git  2.40.0  2.42.0  winget")
  = [] ++ [mkPackage (lit "Git") (lit "Git.Git") (lit "2.40.0")
                     (lit "winget") (lit "2.42.0")]
  /\ line_step upgrade_pattern upgrade_record []
               (lit "Git  Git.Git  2.40.0  2.42.0  winget")
     = [] ++ [mkPackage (lit "Git") (lit "Git.Git") (lit "2.40.0")
                        (lit "winget") (lit "2.42.0")]
  /\ line_step list_pattern search_record []
               (lit "Git  Git.Git  2.40.0  2.42.0  winget")
     = [] ++ [mkPackage (lit "Git") (lit "Git.Git") (lit "2.40.0")
                        (lit "winget")
                        (if is_label (lit "2.42.0") then [] else lit "2.42.0")].
Proof.
  apply (five_column_row
           (lit "Git  Git.Git  2.40.0  2.42.0  winget")
           (lit "Git") (lit "Git.Git") (lit "2.40.0") (lit "2.42.0")
           (lit "winget")
           (lit "  ") (lit "  ") (lit "  ") (lit "  ") []);
    vm_compute; reflexivity.
Defined.

(** ** Whole tables *)

Section Tables.

Lemma data_lines_of_table (pre : list str) (sep : str) (data : list str) :
  existsb is_separator pre = false ->
  is_separator sep = true ->
  data_lines_of (pre ++ sep :: data) = data.
Proof.
  intros Hpre Hsep. induction pre as [|l pre IH]; simpl.
  - rewrite Hsep. reflexivity.
  - simpl in Hpre. apply orb_false_iff in Hpre. destruct Hpre as [Hl Hpre].
    rewrite Hl. apply IH. exact Hpre.
Qed.

Lemma upgrade_rows_parse (data : list str) (rows : list Package) :
  Forall2 upgrade_row data rows ->
  flat_map (line_step upgrade_pattern upgrade_record []) data = rows.
Proof.
  induction 1 as [|line rec data rows Hrow _ IH]; [reflexivity|].
  simpl. rewrite IH.
  destruct Hrow as (g1 & g2 & g3 & g4 & E & Hg1 & Hg2 & Hg3 & Hg4
                    & Hf1 & Hf2 & Hf3 & Hf4 & Hf5 & Hsp).
  destruct (five_column_row line _ _ _ _ _ g1 g2 g3 g4 []
              E Hf1 Hf2 Hf3 Hf4 Hf5 Hg1 Hg2 Hg3 Hg4 Hsp) as (_ & H & _).
  rewrite H. destruct rec; reflexivity.
Qed.

End Tables.

(** Whatever stands above the first separator line, and that line itself,
    never reaches the output of a parser: the records are those of the
    lines below it, taken alone. *)
Theorem header_is_ignored :
  forall (output : str) (pre : list str) (sep : str) (data : list str),
    split nl (strip output) = pre ++ sep :: data ->
    existsb is_separator pre = false ->
    is_separator sep = true ->
    _parse_list_output output = parse_lines list_pattern list_record data []
    /\ _parse_search_output output
       = parse_lines list_pattern search_record data []
    /\ _parse_upgrade_output output
       = parse_lines upgrade_pattern upgrade_record data [].
Proof.
  intros output pre sep data E Hpre Hsep.
  unfold _parse_list_output, _parse_search_output, _parse_upgrade_output.
  rewrite !parse_with_data_lines, E, (data_lines_of_table pre sep data Hpre Hsep).
  rewrite !parse_lines_flat_map. repeat split; reflexivity.
Qed.

Lemma header_is_ignored_witness :
  _parse_list_output two_updates
  = parse_lines list_pattern list_record
                [lit "Git  Git.Git  2.40.0  2.42.0  winget";
                 lit "2 upgrades available.";
                 lit "Vim  vim.vim  9.0.1  9.1.0  winget"] []
  /\ _parse_search_output two_updates
     = parse_lines list_pattern search_record
                   [lit "Git  Git.Git  2.40.0  2.42.0  winget";
                    lit "2 upgrades available.";
                    lit "Vim  vim.vim  9.0.1  9.1.0  winget"] []
  /\ _parse_upgrade_output two_updates
     = parse_lines upgrade_pattern upgrade_record
                   [lit "Git  Git.Git  2.40.0  2.42.0  winget";
                    lit "2 upgrades available.";
                    lit "Vim  vim.vim  9.0.1  9.1.0  winget"] [].
Proof.
  apply (header_is_ignored
           two_updates
           [lit "Name  Id       Version  Available  Source"]
           (lit "-----------------------------------------")
           [lit "Git  Git.Git  2.40.0  2.42.0  winget";
            lit "2 upgrades available.";
            lit "Vim  vim.vim  9.0.1  9.1.0  winget"]);
    vm_compute; reflexivity.
Defined.

(** A table of the upgradable list parses back to its records: when the
    lines of the trimmed text are some lines that are no separator, a
    separator line, and one well-formed row for each record of [rows], the
    parser returns exactly [rows], in order. *)
Theorem upgrade_table_round_trip :
  forall (output : str) (pre : list str) (sep : str) (data : list str)
         (rows : list Package),
    split nl (strip output) = pre ++ sep :: data ->
    existsb is_separator pre = false ->
    is_separator sep = true ->
    Forall2 upgrade_row data rows ->
    _parse_upgrade_output output = rows.
Proof.
  intros output pre sep data rows E Hpre Hsep Hrows.
  unfold _parse_upgrade_output.
  rewrite parse_with_data_lines, E, (data_lines_of_table pre sep data Hpre Hsep).
  apply upgrade_rows_parse. exact Hrows.
Qed.

Lemma upgrade_table_round_trip_witness :
  _parse_upgrade_output
    (text ["Name  Id       Version  Available  Source";
           "-----------------------------------------";
           "Git  Git.Git  2.40.0    2.42.0   winget  ";
           "Vim  vim.vim  9.0.1  9.1.0  msstore"])
  = [mkPackage (lit "Git") (lit "Git.Git") (lit "2.40.0") (lit "winget")
               (lit "2.42.0");
     mkPackage (lit "Vim") (lit "vim.vim") (lit "9.0.1") (lit "msstore")
               (lit "9.1.0")].
Proof.
  apply (upgrade_table_round_trip
           _ [lit "Name  Id       Version  Available  Source"]
           (lit "-----------------------------------------")
           [lit "Git  Git.Git  2.40.0    2.42.0   winget  ";
            lit "Vim  vim.vim  9.0.1  9.1.0  msstore"]).
  - vm_compute. reflexivity.
  - vm_compute. reflexivity.
  - vm_compute. reflexivity.
  - constructor; [|constructor; [|constructor]].
    + exists (lit "  "), (lit "  "), (lit "    "), (lit "   ").
      repeat split; vm_compute; reflexivity.
    + exists (lit "  "), (lit "  "), (lit "  "), (lit "  ").
      repeat split; vm_compute; reflexivity.
Defined.

(** ** Fields are trimmed *)

Section Trimmed.

Lemma lstrip_id (s : str) : s = [] \/ solid_start s -> lstrip s = s.
Proof.
  intros [->|(c & t & -> & H)]; [reflexivity|]. simpl. rewrite H. reflexivity.
Qed.

Lemma rstrip_id (t : str) (c : char) :
  isspace c = false -> rstrip (t ++ [c]) = t ++ [c].
Proof.
  intros H. unfold rstrip. rewrite rev_app_distr. simpl. rewrite H.
  simpl. rewrite rev_involutive. reflexivity.
Qed.

Lemma strip_idem (s : str) : strip (strip s) = strip s.
Proof.
  destruct (strip s) as [|c t] eqn:E; [reflexivity|].
  pose proof (strip_head s c t E) as Hc.
  assert (Hne : c :: t <> []) by discriminate.
  destruct (exists_last Hne) as (u & d & Eu).
  pose proof E as E'. rewrite Eu in E'.
  pose proof (strip_last s d u E') as Hd.
  unfold strip at 1. simpl. rewrite Hc. rewrite Eu. apply rstrip_id. exact Hd.
Qed.

Lemma strip_forallb (p : char -> bool) (s : str) :
  forallb p s = true -> forallb p (strip s) = true.
Proof.
  intros H. destruct (lstrip_split s) as (w1 & E1 & _).
  destruct (rstrip_split (lstrip s)) as (w2 & E2 & _).
  fold (strip s) in E2. rewrite E1, E2, !forallb_app in H.
  apply andb_true_iff in H. destruct H as [_ H].
  apply andb_true_iff in H. apply H.
Qed.

Lemma trimmed_strip (g : str) : forallb dot g = true -> trimmed (strip g).
Proof.
  intros H. split; [apply strip_idem|apply strip_forallb; exact H].
Qed.

Lemma trimmed_nil : trimmed [].
Proof. split; reflexivity. Qed.

Lemma den_dot_captures (whole : str) (r : regex) :
  groups_dot r ->
  forall s m s' m',
    den whole r s m s' m' -> dot_captures m -> dot_captures m'.
Proof.
  induction r as [| |cls min greedy|i r IH|r IH|r1 IH1 r2 IH2];
    intros Hr s m s' m' H Hm; simpl in H.
  - destruct H as (_ & _ & ->). exact Hm.
  - destruct H as (_ & _ & ->). exact Hm.
  - destruct H as (pre & _ & _ & _ & ->). exact Hm.
  - simpl in Hr. subst r. destruct H as (m0 & H & ->).
    simpl in H. destruct H as (pre & -> & Hpre & _ & ->).
    rewrite firstn_consumed. intros j g. simpl.
    destruct (Nat.eqb j i); [|apply Hm].
    intros E. injection E as <-. exact Hpre.
  - destruct H as [H|(_ & ->)]; [|exact Hm]. exact (IH Hr _ _ _ _ H Hm).
  - destruct Hr as [Hr1 Hr2]. destruct H as (s1 & m1 & H1 & H2).
    exact (IH2 Hr2 _ _ _ _ H2 (IH1 Hr1 _ _ _ _ H1 Hm)).
Qed.

Lemma match_dot_captures (pattern : regex) (line : str) (m : captures) :
  groups_dot pattern -> re_match pattern line = Some m -> dot_captures m.
Proof.
  intros Hp H. apply re_match_sound in H. destruct H as (s' & H).
  apply (den_dot_captures line pattern Hp _ _ _ _ H).
  intros i g E. discriminate E.
Qed.

Lemma dot_captures_groups (m : captures) (i : nat) :
  dot_captures m -> trimmed (group_strip m i) /\ trimmed (stripped_group m i).
Proof.
  intros Hm. unfold group_strip, stripped_group.
  destruct (group m i) as [g|] eqn:E.
  - pose proof (Hm i g E) as Hg. split; [apply trimmed_strip; exact Hg|].
    destruct (truthy g); [apply trimmed_strip; exact Hg|apply trimmed_nil].
  - split; apply trimmed_nil.
Qed.

Lemma trimmed_winget : trimmed (lit "winget").
Proof. split; vm_compute; reflexivity. Qed.

End Trimmed.

(** Every field of every record of the three parsers is free of white
    space at both ends and holds no newline. *)
Theorem fields_are_trimmed :
  forall (output : str) (rec : Package),
    In rec (_parse_list_output output)
    \/ In rec (_parse_search_output output)
    \/ In rec (_parse_upgrade_output output) ->
    Forall trimmed (fields rec).
Proof.
  intros output rec H.
  assert (Hl : groups_dot list_pattern) by (simpl; repeat split; reflexivity).
  assert (Hu : groups_dot upgrade_pattern) by (simpl; repeat split; reflexivity).
  destruct H as [H|[H|H]];
    apply in_parse_with in H;
    destruct H as (line & m & _ & _ & _ & Hm & ->);
    [apply (match_dot_captures _ _ _ Hl) in Hm
    |apply (match_dot_captures _ _ _ Hl) in Hm
    |apply (match_dot_captures _ _ _ Hu) in Hm];
    pose proof (dot_captures_groups m 1 Hm) as [N1 _];
    pose proof (dot_captures_groups m 2 Hm) as [N2 _];
    pose proof (dot_captures_groups m 3 Hm) as [N3 _];
    pose proof (dot_captures_groups m 4 Hm) as [N4 S4];
    pose proof (dot_captures_groups m 5 Hm) as [N5 S5];
    pose proof trimmed_nil as T0; pose proof trimmed_winget as Tw.
  - unfold list_record, fields. cbv zeta.
    destruct (truthy (stripped_group m 5));
      [|destruct (truthy (stripped_group m 4) &&
                  looks_like_source (stripped_group m 4))];
      simpl; repeat (apply Forall_cons; [assumption|]); apply Forall_nil.
  - unfold search_record, fields. cbv zeta.
    destruct (truthy (stripped_group m 5));
      [destruct (truthy (stripped_group m 4) &&
                 negb (is_label (stripped_group m 4)))
      |destruct (truthy (stripped_group m 4) &&
                 looks_like_source (stripped_group m 4))];
      simpl; repeat (apply Forall_cons; [assumption|]); apply Forall_nil.
  - unfold upgrade_record, fields. simpl.
    repeat (apply Forall_cons; [assumption|]); apply Forall_nil.
Qed.

Lemma fields_are_trimmed_witness :
  Forall trimmed
         (fields (mkPackage (lit "Notepad++ (64-bit x64)")
                            (lit "Notepad++.Notepad++")
                            (lit "8.5.4") (lit "winget") [])).
Proof.
  apply (fields_are_trimmed sample_installed).
  left. vm_compute. right. left. reflexivity.
Defined.

(** ** The version is never blank in the parsers with optional columns *)

Section Priority.

(** A greedy run stops where it does only after what follows has failed
    one character further on. *)
Lemma rep_greedy_longest (A : Type) (cls : char -> bool) (s : str) :
  forall (min : nat) (k : str -> option A) (res : A),
  rep_greedy cls min s k = Some res ->
  exists pre s', s = pre ++ s' /\ forallb cls pre = true /\
                 min <= length pre /\ k s' = Some res /\
                 (forall c t, s' = c :: t -> cls c = true ->
                              rep_greedy cls 0 t k = None).
Proof.
  induction s as [|c s IH]; intros min k res; simpl.
  - destruct min; [|discriminate]. intros H.
    exists [], []. repeat split; try lia; [exact H|discriminate].
  - destruct (cls c) eqn:Ec.
    + destruct (rep_greedy cls (Nat.pred min) s k) eqn:E.
      * intros H. injection H as ->.
        destruct (IH _ _ _ E) as (pre & s' & -> & H2 & H3 & H4 & H5).
        exists (c :: pre), s'. simpl. rewrite Ec, H2.
        repeat split; try lia; assumption.
      * destruct min; [|discriminate]. intros H.
        exists [], (c :: s). repeat split; try lia; [exact H|].
        intros c' t E' _. injection E' as <- <-. exact E.
    + destruct min; [|discriminate]. intros H.
      exists [], (c :: s). repeat split; try lia; [exact H|].
      intros c' t E' Hc'. injection E' as <- <-. congruence.
Qed.

Lemma rep_greedy_zero_none (A : Type) (cls : char -> bool) (t : str)
      (k : str -> option A) :
  rep_greedy cls 0 t k = None -> k t = None.
Proof.
  destruct t as [|c t]; simpl; [trivial|].
  destruct (cls c); [|trivial].
  destruct (rep_greedy cls 0 t k); [discriminate|trivial].
Qed.

(** A lazy run finds a match when what follows it accepts the end of the
    text. *)
Lemma rep_lazy_reaches_end (A : Type) (cls : char -> bool) (t : str) :
  forall (min : nat) (k : str -> option A),
    forallb cls t = true -> min <= length t -> k [] <> None ->
    rep_lazy cls min t k <> None.
Proof.
  induction t as [|c t IH]; intros min k Hcls Hmin Hk.
  - simpl in Hmin. assert (min = 0) by lia. subst min. simpl.
    destruct (k []); congruence.
  - simpl in Hcls. apply andb_true_iff in Hcls. destruct Hcls as [Hc Ht].
    destruct min as [|min]; cbn [rep_lazy].
    + destruct (k (c :: t)); [discriminate|]. rewrite Hc.
      apply IH; [exact Ht|lia|exact Hk].
    + rewrite Hc. apply IH; [exact Ht|simpl in Hmin; lia|exact Hk].
Qed.

Lemma run_seq_sound (whole : str) (r1 r2 : regex) (s : str) (m : captures)
      (k : str -> captures -> option captures) (res : captures) :
  run (r1 ;; r2) whole s m k = Some res ->
  exists s' m', den whole r1 s m s' m' /\ run r2 whole s' m' k = Some res.
Proof. cbn [run]. apply run_sound. Qed.

(** After a gap, a column that may run to the end of the line starts with a
    character that is not white space. *)
Lemma gap_then_field_solid (whole : str) (i : nat) (r : regex) (s : str)
      (m : captures) (k : str -> captures -> option captures)
      (res : captures) (v : str) (d : char) :
  run (gap ;; field i ;; r) whole s m k = Some res ->
  forallb dot s = true ->
  s = v ++ [d] -> isspace d = false ->
  (forall m', run r whole [] m' k <> None) ->
  exists g s', solid_start g
               /\ run r whole s' ((i, g) :: m) k = Some res.
Proof.
  intros H Hdot Hv Hd Hend.
  change (rep_greedy isspace 2 s
            (fun s' => run (field i ;; r) whole s' m k) = Some res) in H.
  apply rep_greedy_longest in H.
  destruct H as (q & s4 & E4 & _ & _ & H & Hmax).
  change (rep_lazy dot 1 s4
            (fun s' => run r whole s'
                           ((i, firstn (length s4 - length s') s4) :: m) k)
          = Some res) in H.
  apply rep_lazy_sound in H. destruct H as (g & s5 & E5 & _ & Hlen & H).
  rewrite E5, firstn_consumed in H.
  exists g, s5. split; [|exact H].
  destruct g as [|c g']; [simpl in Hlen; lia|].
  exists c, g'. split; [reflexivity|].
  destruct (isspace c) eqn:Ec; [exfalso|reflexivity].
  pose proof (Hmax c (g' ++ s5)) as Hm. rewrite E5 in Hm.
  specialize (Hm eq_refl Ec). apply rep_greedy_zero_none in Hm.
  change (rep_lazy dot 1 (g' ++ s5)
            (fun s' => run r whole s'
                           ((i, firstn (length (g' ++ s5) - length s')
                                       (g' ++ s5)) :: m) k)
          = None) in Hm.
  revert Hm. apply rep_lazy_reaches_end.
  - rewrite E4, E5 in Hdot. rewrite forallb_app in Hdot.
    apply andb_true_iff in Hdot. destruct Hdot as [_ Hdot].
    simpl in Hdot. apply andb_true_iff in Hdot. apply Hdot.
  - destruct (g' ++ s5) as [|x rest] eqn:Eg; [|simpl; lia].
    exfalso. rewrite E4, E5 in Hv. simpl in Hv. rewrite Eg in Hv.
    apply app_inj_tail in Hv. destruct Hv as [_ Hv]. congruence.
  - apply Hend.
Qed.

Lemma suffix_last (x s u : str) (d : char) :
  x ++ s = u ++ [d] -> s <> [] -> exists v, s = v ++ [d].
Proof.
  intros E Hs. destruct (exists_last Hs) as (v & e & ->).
  rewrite app_assoc in E. apply app_inj_tail in E. destruct E as [_ ->].
  exists v. reflexivity.
Qed.

(** The optional columns and the end of the pattern leave the first three
    groups as they are. *)
Lemma tail_keeps_groups (whole s : str) (m : captures) (s' : str)
      (m' : captures) (i : nat) :
  den whole (Opt (gap ;; field 4) ;; Opt (gap ;; field 5) ;; Eol) s m s' m' ->
  i < 4 -> group m' i = group m i.
Proof.
  intros H Hi. cbn [den] in H.
  destruct H as (t6 & m6 & O4 & t7 & m7 & O5 & (_ & _ & ->)).
  assert (H4 : group m6 i = group m i).
  { destruct O4 as [(t8 & m8 & Hg3 & F4)|(_ & ->)]; [|reflexivity].
    apply den_gap in Hg3. destruct Hg3 as (s3 & _ & _ & ->).
    apply den_field in F4. destruct F4 as (g4 & _ & _ & ->).
    simpl. destruct (Nat.eqb_spec i 4); [lia|reflexivity]. }
  rewrite <- H4.
  destruct O5 as [(t9 & m9 & Hg4 & F5)|(_ & ->)]; [|reflexivity].
  apply den_gap in Hg4. destruct Hg4 as (s4 & _ & _ & ->).
  apply den_field in F5. destruct F5 as (g5 & _ & _ & ->).
  simpl. destruct (Nat.eqb_spec i 5); [lia|reflexivity].
Qed.

(** In a match of the pattern with optional columns on a trimmed line
    without a newline, the third group starts with a character that is not
    white space. *)
Lemma third_group_solid (line : str) (m : captures) (u : str) (d : char) :
  re_match list_pattern line = Some m ->
  forallb dot line = true ->
  line = u ++ [d] -> isspace d = false ->
  exists g3, group m 3 = Some g3 /\ solid_start g3.
Proof.
  intros H Hnl Hu Hd. unfold re_match, list_pattern in H.
  apply run_seq_sound in H. destruct H as (t0 & m0 & (_ & -> & ->) & H).
  apply run_seq_sound in H. destruct H as (t1 & m1 & F1 & H).
  apply den_field in F1. destruct F1 as (g1 & E1 & _ & ->).
  apply run_seq_sound in H. destruct H as (t2 & m2 & Hg1 & H).
  apply den_gap in Hg1. destruct Hg1 as (s1 & E2 & _ & ->).
  apply run_seq_sound in H. destruct H as (t3 & m3 & F2 & H).
  apply den_field in F2. destruct F2 as (g2 & E3 & _ & ->).
  assert (Et : line = (g1 ++ s1 ++ g2) ++ t3)
    by (rewrite E1, E2, E3, <- !app_assoc; reflexivity).
  assert (Hne : t3 <> []) by (intros ->; discriminate H).
  rewrite Hu in Et. symmetry in Et.
  destruct (suffix_last _ _ _ _ Et Hne) as (v & Hv).
  assert (Hdot : forallb dot t3 = true).
  { rewrite E1, E2, E3, !forallb_app in Hnl.
    apply andb_true_iff in Hnl. destruct Hnl as [_ Hnl].
    apply andb_true_iff in Hnl. destruct Hnl as [_ Hnl].
    apply andb_true_iff in Hnl. apply Hnl. }
  destruct (gap_then_field_solid line 3 _ t3 _ _ m v d H Hdot Hv Hd)
    as (g3 & s5 & Hsolid & Hrest).
  { intros m'. discriminate. }
  exists g3. split; [|exact Hsolid].
  apply run_sound in Hrest. destruct Hrest as (s6 & m6 & Hden & Hres).
  injection Hres as <-.
  rewrite (tail_keeps_groups _ _ _ _ _ 3 Hden); [|lia].
  reflexivity.
Qed.

Lemma split_lines_dot (s : str) :
  Forall (fun l => forallb dot l = true) (split nl s).
Proof.
  induction s as [|c s IH]; simpl.
  - constructor; [reflexivity|constructor].
  - destruct (N.eqb_spec c nl) as [E|E].
    + constructor; [reflexivity|exact IH].
    + destruct (split nl s) as [|l ls].
      * constructor; [|constructor]. simpl. unfold dot.
        apply N.eqb_neq in E. rewrite E. reflexivity.
      * inversion IH as [|? ? Hl Hls]; subst.
        constructor; [|exact Hls]. simpl. rewrite Hl. unfold dot.
        apply N.eqb_neq in E. rewrite E. reflexivity.
Qed.

Lemma data_lines_of_incl (lines : list str) (line : str) :
  In line (data_lines_of lines) -> In line lines.
Proof.
  induction lines as [|l ls IH]; simpl; [trivial|].
  destruct (is_separator l); intros H; right; [exact H|apply IH; exact H].
Qed.

End Priority.

(** In the installed-list and the search-results parser, every record has
    a version that is not empty. *)
Theorem version_never_empty :
  forall (output : str) (rec : Package),
    In rec (_parse_list_output output)
    \/ In rec (_parse_search_output output) ->
    version rec <> [].
Proof.
  intros output rec H.
  assert (Hcommon :
    forall record,
      (forall m, version (record m) = group_strip m 3) ->
      In rec (parse_with list_pattern record output) -> version rec <> []).
  { intros record Hv Hin. apply in_parse_with in Hin.
    destruct Hin as (line & m & Hline & Hne & _ & Hm & ->).
    apply data_lines_of_incl in Hline.
    pose proof (split_lines_dot (strip output)) as Hall.
    rewrite Forall_forall in Hall. specialize (Hall line Hline).
    apply (strip_forallb dot) in Hall.
    destruct (exists_last Hne) as (u & d & Eu).
    pose proof (strip_last line d u Eu) as Hd.
    destruct (third_group_solid _ m u d Hm Hall Eu Hd)
      as (g3 & Hg & c & t & -> & Hc).
    rewrite Hv. unfold group_strip. rewrite Hg.
    exact (strip_nonempty [] t c Hc). }
  destruct H as [H|H].
  - apply (Hcommon list_record); [|exact H].
    intros m. unfold list_record. cbv zeta.
    destruct (truthy (stripped_group m 5));
      [|destruct (truthy (stripped_group m 4) &&
                  looks_like_source (stripped_group m 4))]; reflexivity.
  - apply (Hcommon search_record); [|exact H].
    intros m. unfold search_record. cbv zeta.
    destruct (truthy (stripped_group m 5));
      [|destruct (truthy (stripped_group m 4) &&
                  looks_like_source (stripped_group m 4))]; reflexivity.
Qed.

Lemma version_never_empty_witness :
  version (mkPackage (lit "Contoso Updater") [] (lit "4.2.1") (lit "winget")
                     []) <> [].
Proof.
  apply (version_never_empty
           (text ["Name             Id             Version";
                  "---------------------------------------";
                  "Contoso Updater     4.2.1"])).
  left. vm_compute. left. reflexivity.
Defined.

(** ** What the caller is told *)

Section Reports.

Variable run : list str -> Z -> run_result.

Lemma error_of_run_command (op : operation) :
  error_of run op = message_of op (_run_command run (argv_of op) 60).
Proof.
  destruct op as [|query| |package_id user_context|package_id|package_id];
    unfold error_of, list_installed, search, check_for_updates, install,
      uninstall, upgrade, default_timeout, message_of, argv_of;
    try (destruct user_context; cbn [app]);
    match goal with
    | |- context [_run_command ?r ?a ?t] =>
        destruct (_run_command r a t) as [stdout rc]
    end;
    destruct (rc =? 0)%Z; reflexivity.
Qed.

Lemma succeeded_run_command (op : operation) (b : bool) :
  succeeded run op = Some b ->
  b = (snd (_run_command run (argv_of op) 60) =? 0)%Z.
Proof.
  destruct op as [|query| |package_id user_context|package_id|package_id];
    try discriminate;
    unfold succeeded, install, uninstall, upgrade, default_timeout, argv_of;
    try (destruct user_context; cbn [app]);
    match goal with
    | |- context [_run_command ?r ?a ?t] =>
        destruct (_run_command r a t) as [stdout rc]
    end;
    simpl; destruct (rc =? 0)%Z; simpl; intros H; injection H as <-;
    reflexivity.
Qed.

Lemma contains_app_r (needle a b : str) :
  contains needle b = true -> contains needle (a ++ b) = true.
Proof.
  intros H. induction a as [|c a IH]; [exact H|].
  cbn [app contains]. rewrite IH. apply orb_true_r.
Qed.

Lemma contains_nonempty (needle s : str) :
  needle <> [] -> contains needle s = true -> s <> [].
Proof.
  intros Hn H ->. destruct needle; [congruence|discriminate H].
Qed.

End Reports.

(** What each of the six operations reports when [subprocess.run] raises.
    A permission error gives the message "Permission denied. Administrator
    privileges may be required."; any other exception gives "Error: " and
    its text.  A timeout and a missing executable both give the message of
    the operation for return code 1: the texts "Command timed out" and
    "winget command not found..." of the runner never reach the caller. *)
Theorem raised_exceptions_reported :
  forall (run : list str -> Z -> run_result) (op : operation),
    match run (winget_exe :: argv_of op) 60%Z with
    | TimeoutExpired | FileNotFoundError =>
        error_of run op = Some (failure_prefix op ++ lit "1")
    | PermissionError =>
        error_of run op
        = Some (lit "Permission denied. Administrator privileges may be required.")
    | OtherException message =>
        error_of run op = Some (lit "Error: " ++ message)
    | Completed _ _ returncode =>
        returncode = 0%Z -> error_of run op = None
    end.
Proof.
  intros run op. rewrite error_of_run_command. unfold _run_command.
  destruct (run (winget_exe :: argv_of op) 60%Z) as [out err rc| | | |msg].
  - intros ->. simpl. reflexivity.
  - destruct op; reflexivity.
  - destruct op; reflexivity.
  - destruct op; reflexivity.
  - unfold message_of. simpl. reflexivity.
Qed.

Lemma raised_exceptions_reported_witness :
  error_of (fun _ _ => Completed (lit "Successfully installed") [] 0)
           (Install (lit "Git.Git") true) = None.
Proof.
  apply (raised_exceptions_reported
           (fun _ _ => Completed (lit "Successfully installed") [] 0)
           (Install (lit "Git.Git") true)).
  reflexivity.
Defined.

(** When the process ends with a code that is not zero and its standard
    error holds "Error" or "Permission", each of the six operations reports
    the standard output, a newline, "STDERR: " and the standard error, in
    full. *)
Theorem stderr_marker_reported :
  forall (run : list str -> Z -> run_result) (op : operation)
         (stdout stderr : str) (returncode : Z),
    run (winget_exe :: argv_of op) 60%Z = Completed stdout stderr returncode ->
    returncode <> 0%Z ->
    contains (lit "Error") stderr || contains (lit "Permission") stderr = true ->
    error_of run op = Some (stdout ++ nl :: lit "STDERR: " ++ stderr).
Proof.
  intros run op out err rc Hrun Hrc Hmark.
  rewrite error_of_run_command. unfold _run_command. rewrite Hrun.
  apply Z.eqb_neq in Hrc. rewrite Hrc. simpl negb.
  assert (Ht : truthy err = true).
  { apply truthy_nonempty. apply orb_true_iff in Hmark.
    destruct Hmark as [H|H];
      [apply (contains_nonempty (lit "Error"))
      |apply (contains_nonempty (lit "Permission"))];
      try exact H; discriminate. }
  rewrite Ht. cbn [andb message_of]. rewrite Hrc.
  assert (Hm : contains (lit "Error") (out ++ [nl] ++ lit "STDERR: " ++ err)
               || contains (lit "Permission")
                           (out ++ [nl] ++ lit "STDERR: " ++ err) = true).
  { apply orb_true_iff in Hmark. apply orb_true_iff.
    destruct Hmark as [H|H]; [left|right];
      rewrite !app_assoc; apply contains_app_r; exact H. }
  rewrite Hm. reflexivity.
Qed.

Lemma stderr_marker_reported_witness :
  error_of (fun _ _ => Completed (lit "Found Git") (lit "Error 0x8A15: denied") 5)
           (Upgrade (lit "Git.Git"))
  = Some (lit "Found Git" ++ nl :: lit "STDERR: "
          ++ lit "Error 0x8A15: denied").
Proof.
  apply (stderr_marker_reported
           (fun _ _ => Completed (lit "Found Git")
                                 (lit "Error 0x8A15: denied") 5)
           (Upgrade (lit "Git.Git"))
           (lit "Found Git") (lit "Error 0x8A15: denied") 5).
  - reflexivity.
  - discriminate.
  - vm_compute. reflexivity.
Defined.

(** [install], [uninstall] and [upgrade] report success exactly when the
    process ran to its end with return code 0, whatever it printed, and
    exactly then they return no error. *)
Theorem success_means_exit_zero :
  forall (run : list str -> Z -> run_result) (op : operation) (b : bool),
    succeeded run op = Some b ->
    (b = true <->
     exists stdout stderr,
       run (winget_exe :: argv_of op) 60%Z = Completed stdout stderr 0)
    /\ (b = true <-> error_of run op = None).
Proof.
  intros run op b H. apply succeeded_run_command in H.
  rewrite error_of_run_command. unfold _run_command in *.
  destruct (run (winget_exe :: argv_of op) 60%Z) as [out err rc| | | |msg].
  - assert (Hb : b = (rc =? 0)%Z).
    { rewrite H. destruct (negb (rc =? 0)%Z && truthy err); reflexivity. }
    clear H. subst b. split.
    + split.
      * intros E. apply Z.eqb_eq in E. subst rc. exists out, err. reflexivity.
      * intros (o & e & E). injection E as _ _ ->. reflexivity.
    + unfold message_of. destruct (rc =? 0)%Z eqn:E; simpl.
      * rewrite E. split; reflexivity.
      * destruct (truthy err); simpl; rewrite E; split; discriminate.
  - subst b. simpl. split; split; try discriminate.
    intros (o & e & E). discriminate E.
  - subst b. simpl. split; split; try discriminate.
    intros (o & e & E). discriminate E.
  - subst b. simpl. split; split; try discriminate.
    intros (o & e & E). discriminate E.
  - subst b. simpl. split; split; try discriminate.
    intros (o & e & E). discriminate E.
Qed.

Lemma success_means_exit_zero_witness :
  (true = true <->
   exists stdout stderr,
     (fun (_ : list str) (_ : Z) => Completed (lit "done") (lit "warning") 0)
       (winget_exe :: argv_of (Uninstall (lit "Git.Git"))) 60%Z
     = Completed stdout stderr 0)
  /\ (true = true <->
      error_of (fun _ _ => Completed (lit "done") (lit "warning") 0)
               (Uninstall (lit "Git.Git")) = None).
Proof.
  apply (success_means_exit_zero
           (fun _ _ => Completed (lit "done") (lit "warning") 0)
           (Uninstall (lit "Git.Git")) true).
  reflexivity.
Defined.

(** ** Upgrading everything *)

Section UpgradeAll.

Variable runs : nat -> list str -> Z -> run_result.
Variable is_cancelled : nat -> bool.

Lemma upgrade_all_loop_tally (package_ids : list str) :
  forall (i n : nat) (s0 f0 : Z) (e0 : list str),
    n <= length package_ids ->
    (forall j, j < n -> is_cancelled (i + j) = false) ->
    (n < length package_ids -> is_cancelled (i + n) = true) ->
    let '(s, f, e) :=
      upgrade_all_loop runs is_cancelled i package_ids s0 f0 e0 in
    (s + f = s0 + f0 + Z.of_nat n)%Z
    /\ (Z.of_nat (length e) - f = Z.of_nat (length e0) - f0)%Z
    /\ (s0 <= s)%Z /\ (f0 <= f)%Z.
Proof.
  induction package_ids as [|package_id rest IH]; intros i n s0 f0 e0 Hn Hrun Hstop.
  - simpl in Hn. assert (n = 0) by lia. subst n. simpl. lia.
  - destruct n as [|n]; cbn [upgrade_all_loop].
    + rewrite Nat.add_0_r in Hstop. rewrite Hstop by (simpl; lia). lia.
    + pose proof (Hrun 0 ltac:(lia)) as H0. rewrite Nat.add_0_r in H0.
      rewrite H0.
      assert (Hrun' : forall j, j < n -> is_cancelled (S i + j) = false).
      { intros j Hj. replace (S i + j) with (i + S j) by lia.
        apply Hrun. lia. }
      assert (Hstop' : n < length rest -> is_cancelled (S i + n) = true).
      { intros Hl. replace (S i + n) with (i + S n) by lia.
        apply Hstop. simpl. lia. }
      simpl in Hn.
      destruct (upgrade (runs i) package_id) as [[|] error].
      * specialize (IH (S i) n (s0 + 1)%Z f0 e0 ltac:(lia) Hrun' Hstop').
        destruct (upgrade_all_loop runs is_cancelled (S i) rest
                                   (s0 + 1) f0 e0) as [[s f] e].
        lia.
      * specialize (IH (S i) n s0 (f0 + 1)%Z
                       (e0 ++ [package_id ++ lit ": " ++ format_optional error])
                       ltac:(lia) Hrun' Hstop').
        destruct (upgrade_all_loop runs is_cancelled (S i) rest s0 (f0 + 1)
                    (e0 ++ [package_id ++ lit ": " ++ format_optional error]))
          as [[s f] e].
        rewrite length_app in IH. simpl in IH. lia.
Qed.

End UpgradeAll.

(** [do_upgrade_all] counts every package it tries exactly once, as a
    success or as a failure, and keeps one error line for each failure: when
    the worker is first seen cancelled at turn [n] (or never, with [n] the
    number of packages), the two counts add up to [n] and the number of
    error lines is the failure count.  A failed upgrade does not stop the
    loop. *)
Theorem upgrade_all_tally :
  forall (runs : nat -> list str -> Z -> run_result)
         (is_cancelled : nat -> bool) (package_ids : list str) (n : nat),
    n <= length package_ids ->
    (forall j, j < n -> is_cancelled j = false) ->
    (n < length package_ids -> is_cancelled n = true) ->
    let '(success_count, fail_count, errors) :=
      do_upgrade_all runs is_cancelled package_ids in
    (success_count + fail_count = Z.of_nat n)%Z
    /\ Z.of_nat (length errors) = fail_count
    /\ (0 <= success_count)%Z /\ (0 <= fail_count)%Z.
Proof.
  intros runs is_cancelled package_ids n Hn Hrun Hstop.
  pose proof (upgrade_all_loop_tally runs is_cancelled package_ids
                0 n 0%Z 0%Z [] Hn Hrun Hstop) as H.
  unfold do_upgrade_all.
  destruct (upgrade_all_loop runs is_cancelled 0 package_ids 0 0 [])
    as [[s f] e].
  simpl in H. lia.
Qed.

Lemma upgrade_all_tally_witness :
  let '(success_count, fail_count, errors) :=
    do_upgrade_all
      (fun i _ _ => match i with
                    | 1 => Completed [] (lit "Error: blocked") 3
                    | _ => Completed (lit "ok") [] 0
                    end)
      (fun _ => false)
      [lit "Git.Git"; lit "vim.vim"; lit "7zip.7zip"] in
  (success_count + fail_count = Z.of_nat 3)%Z
  /\ Z.of_nat (length errors) = fail_count
  /\ (0 <= success_count)%Z /\ (0 <= fail_count)%Z.
Proof.
  apply (upgrade_all_tally
           (fun i _ _ => match i with
                         | 1 => Completed [] (lit "Error: blocked") 3
                         | _ => Completed (lit "ok") [] 0
                         end)
           (fun _ => false)
           [lit "Git.Git"; lit "vim.vim"; lit "7zip.7zip"] 3).
  - simpl. lia.
  - reflexivity.
  - simpl. lia.
Defined.

(** ** Filtering the tables *)

Section Substrings.

Lemma startswith_app (n q : str) : startswith n (n ++ q) = true.
Proof.
  induction n as [|c n IH]; simpl; [destruct q; reflexivity|].
  rewrite N.eqb_refl. exact IH.
Qed.

Lemma startswith_split (n s : str) :
  startswith n s = true -> exists q, s = n ++ q.
Proof.
  revert s; induction n as [|c n IH]; intros s H.
  - exists s. reflexivity.
  - destruct s as [|d s]; [discriminate H|]. simpl in H.
    apply andb_true_iff in H. destruct H as [Hc Hn].
    apply N.eqb_eq in Hc. subst d.
    destruct (IH s Hn) as (q & ->). exists q. reflexivity.
Qed.

Lemma contains_split (n s : str) :
  contains n s = true -> exists p q, s = p ++ n ++ q.
Proof.
  induction s as [|c s IH]; intros H.
  - simpl in H. rewrite orb_false_r in H.
    destruct (startswith_split n [] H) as (q & E).
    exists [], q. exact E.
  - cbn [contains] in H. apply orb_true_iff in H. destruct H as [H|H].
    + destruct (startswith_split n (c :: s) H) as (q & E).
      exists [], q. exact E.
    + destruct (IH H) as (p & q & ->). exists (c :: p), q. reflexivity.
Qed.

Lemma contains_startswith (n s : str) :
  startswith n s = true -> contains n s = true.
Proof. intros H. destruct s; simpl; rewrite H; reflexivity. Qed.

Lemma contains_app (p n q : str) : contains n (p ++ n ++ q) = true.
Proof.
  induction p as [|c p IH].
  - apply contains_startswith. exact (startswith_app n q).
  - cbn [app contains]. rewrite IH. apply orb_true_r.
Qed.

(** A part of a part of a text is a part of the text. *)
Lemma contains_trans (a b s : str) :
  contains a b = true -> contains b s = true -> contains a s = true.
Proof.
  intros Hab Hbs.
  destruct (contains_split a b Hab) as (p & q & ->).
  destruct (contains_split _ s Hbs) as (p' & q' & ->).
  replace (p' ++ (p ++ a ++ q) ++ q') with ((p' ++ p) ++ a ++ (q ++ q'))
    by (rewrite <- !app_assoc; reflexivity).
  apply contains_app.
Qed.

Lemma contains_nil_l (s : str) : contains [] s = true.
Proof. destruct s; reflexivity. Qed.

Lemma contains_nil_r (n : str) : contains n [] = true -> n = [].
Proof. destruct n; [reflexivity|discriminate]. Qed.

End Substrings.

(** Typing further never brings a hidden row back.  When the query of one
    search text (trimmed, in lower case) is a part of the query of another,
    every row that [filter_installed_table] and [filter_updates_table] show
    for the second they also show for the first. *)
Theorem filter_narrows :
  forall (str_lower : str -> str) (value1 value2 : str)
         (data : list Package) (row : list str),
    contains (str_lower (strip value1)) (str_lower (strip value2)) = true ->
    (In row (filter_installed_table str_lower value2 data) ->
     In row (filter_installed_table str_lower value1 data))
    /\ (In row (filter_updates_table str_lower value2 data) ->
        In row (filter_updates_table str_lower value1 data)).
Proof.
  intros str_lower value1 value2 data row Hq.
  unfold filter_installed_table, filter_updates_table. cbv zeta.
  set (q1 := str_lower (strip value1)) in *.
  set (q2 := str_lower (strip value2)) in *.
  assert (Htr : forall s, contains q2 s = true -> contains q1 s = true)
    by (intros s; apply contains_trans; exact Hq).
  destruct (truthy q1) eqn:E1; simpl.
  - assert (E2 : truthy q2 = true).
    { destruct q2; [|reflexivity].
      apply contains_nil_r in Hq. rewrite Hq in E1. discriminate E1. }
    rewrite E2. simpl. split; intros H;
      apply in_flat_map in H; destruct H as (pkg & Hin & H);
      apply in_flat_map; exists pkg; (split; [exact Hin|]).
    + destruct (contains q2 (str_lower (name pkg))
                || contains q2 (str_lower (id pkg))
                || contains q2 (str_lower (version pkg))
                || contains q2 (str_lower (source pkg))) eqn:E;
        [|contradiction].
      rewrite !orb_true_iff in E.
      assert (E' : contains q1 (str_lower (name pkg))
                   || contains q1 (str_lower (id pkg))
                   || contains q1 (str_lower (version pkg))
                   || contains q1 (str_lower (source pkg)) = true).
      { rewrite !orb_true_iff.
        destruct E as [[[E|E]|E]|E]; apply Htr in E; tauto. }
      rewrite E'. exact H.
    + destruct (contains q2 (str_lower (name pkg))
                || contains q2 (str_lower (id pkg))
                || contains q2 (str_lower (version pkg))
                || contains q2 (str_lower (available_version pkg))
                || contains q2 (str_lower (source pkg))) eqn:E;
        [|contradiction].
      rewrite !orb_true_iff in E.
      assert (E' : contains q1 (str_lower (name pkg))
                   || contains q1 (str_lower (id pkg))
                   || contains q1 (str_lower (version pkg))
                   || contains q1 (str_lower (available_version pkg))
                   || contains q1 (str_lower (source pkg)) = true).
      { rewrite !orb_true_iff.
        destruct E as [[[[E|E]|E]|E]|E]; apply Htr in E; tauto. }
      rewrite E'. exact H.
  - split; intros H.
    + destruct (negb (truthy q2));
        apply in_flat_map in H; destruct H as (pkg & Hin & H);
        apply in_flat_map; exists pkg; (split; [exact Hin|]);
        [exact H|].
      destruct (contains _ _ || contains _ _ || contains _ _ || contains _ _);
        [exact H|contradiction].
    + destruct (negb (truthy q2));
        apply in_flat_map in H; destruct H as (pkg & Hin & H);
        apply in_flat_map; exists pkg; (split; [exact Hin|]);
        [exact H|].
      destruct (contains _ _ || contains _ _ || contains _ _ || contains _ _
                || contains _ _);
        [exact H|contradiction].
Qed.

Lemma filter_narrows_witness :
  (In [lit "Git"; lit "Git.Git"; lit "2.40.0"; lit "winget"]
      (filter_installed_table lower (lit " GIT. ")
         [mkPackage (lit "Git") (lit "Git.Git") (lit "2.40.0") (lit "winget") [];
          mkPackage (lit "Vim") (lit "vim.vim") (lit "9.0.1") (lit "winget") []]) ->
   In [lit "Git"; lit "Git.Git"; lit "2.40.0"; lit "winget"]
      (filter_installed_table lower (lit "gi")
         [mkPackage (lit "Git") (lit "Git.Git") (lit "2.40.0") (lit "winget") [];
          mkPackage (lit "Vim") (lit "vim.vim") (lit "9.0.1") (lit "winget") []]))
  /\ (In [lit "Git"; lit "Git.Git"; lit "2.40.0"; lit "winget"]
         (filter_updates_table lower (lit " GIT. ")
            [mkPackage (lit "Git") (lit "Git.Git") (lit "2.40.0") (lit "winget") [];
             mkPackage (lit "Vim") (lit "vim.vim") (lit "9.0.1") (lit "winget") []]) ->
      In [lit "Git"; lit "Git.Git"; lit "2.40.0"; lit "winget"]
         (filter_updates_table lower (lit "gi")
            [mkPackage (lit "Git") (lit "Git.Git") (lit "2.40.0") (lit "winget") [];
             mkPackage (lit "Vim") (lit "vim.vim") (lit "9.0.1") (lit "winget") []])).
Proof.
  apply (filter_narrows lower (lit "gi") (lit " GIT. ")).
  vm_compute. reflexivity.
Defined.

(** A search text that is blank once trimmed hides nothing: the installed
    table shows one row for each package, in order, and so does the updates
    table.  The lower case of the empty text is taken to be empty. *)
Theorem blank_filter_shows_all :
  forall (str_lower : str -> str) (value : str) (data : list Package),
    str_lower [] = [] ->
    strip value = [] ->
    filter_installed_table str_lower value data
    = map (fun pkg => [name pkg; id pkg; version pkg; source pkg]) data
    /\ filter_updates_table str_lower value data
       = map (fun pkg => [name pkg; id pkg; version pkg;
                          available_version pkg; source pkg]) data.
Proof.
  intros str_lower value data Hl Hv.
  unfold filter_installed_table, filter_updates_table. cbv zeta.
  rewrite Hv, Hl. simpl.
  split; induction data as [|pkg data IH]; simpl; try reflexivity;
    rewrite IH; reflexivity.
Qed.

Lemma blank_filter_shows_all_witness :
  filter_installed_table lower (lit "   ")
    [mkPackage (lit "Git") (lit "Git.Git") (lit "2.40.0") (lit "winget") []]
  = map (fun pkg => [name pkg; id pkg; version pkg; source pkg])
        [mkPackage (lit "Git") (lit "Git.Git") (lit "2.40.0") (lit "winget") []]
  /\ filter_updates_table lower (lit "   ")
       [mkPackage (lit "Git") (lit "Git.Git") (lit "2.40.0") (lit "winget") []]
     = map (fun pkg => [name pkg; id pkg; version pkg;
                        available_version pkg; source pkg])
           [mkPackage (lit "Git") (lit "Git.Git") (lit "2.40.0") (lit "winget")
                      []].
Proof.
  apply (blank_filter_shows_all lower (lit "   ")).
  - reflexivity.
  - vm_compute. reflexivity.
Defined.

(** ** White space around the text *)

(** White space before and after the text that the package manager printed
    changes nothing in what the three parsers return. *)
Theorem surrounding_space_ignored :
  forall (output before after : str),
    forallb isspace before = true ->
    forallb isspace after = true ->
    _parse_list_output (before ++ output ++ after) = _parse_list_output output
    /\ _parse_search_output (before ++ output ++ after)
       = _parse_search_output output
    /\ _parse_upgrade_output (before ++ output ++ after)
       = _parse_upgrade_output output.
Proof.
  intros output before after Hb Ha.
  assert (E : strip (before ++ output ++ after) = strip output).
  { rewrite (strip_app_spaces_l before _ Hb).
    apply strip_app_spaces_r. exact Ha. }
  unfold _parse_list_output, _parse_search_output, _parse_upgrade_output,
    parse_with.
  rewrite E. repeat split; reflexivity.
Qed.

Lemma surrounding_space_ignored_witness :
  _parse_list_output ([nl; 32%N] ++ sample_installed ++ [32%N; 13%N; nl])
  = _parse_list_output sample_installed
  /\ _parse_search_output ([nl; 32%N] ++ sample_installed ++ [32%N; 13%N; nl])
     = _parse_search_output sample_installed
  /\ _parse_upgrade_output ([nl; 32%N] ++ sample_installed ++ [32%N; 13%N; nl])
     = _parse_upgrade_output sample_installed.
Proof.
  apply (surrounding_space_ignored sample_installed [nl; 32%N]
                                   [32%N; 13%N; nl]);
    reflexivity.
Defined.

(** ** The name of a record *)

Lemma name_never_empty_witness :
  name (mkPackage (lit "Contoso Updater") [] (lit "4.2.1") (lit "winget") [])
  <> [].
Proof.
  apply (name_never_empty
           (text ["Name             Id             Version";
                  "---------------------------------------";
                  "Contoso Updater     4.2.1"])).
  left. vm_compute. left. reflexivity.
Defined.
